(** * ros2-realsense-db3-to-video: a shallow embedding of the converter

    The script reads a rosbag2 recording, turns the colour and depth image
    messages into BGR frames and pipes the frames into an [ffmpeg] process.
    This file embeds [extract_color_frames], [extract_depth_frames],
    [extract_imu_data], [create_video] and [main] of
    [ros2-realsense-db3-to-video.py] and states their properties.

    Library calls are modelled by what they compute:
    - numpy arrays are a shape together with the row-major (C order) list of
      elements, which is also what [tobytes] returns;
    - [np.frombuffer(...).reshape(...)] raises [ValueError] when the number
      of elements does not agree with the requested shape;
    - [cv2.cvtColor(_, COLOR_RGB2BGR)] exchanges bytes 0 and 2 of each pixel;
    - [cv2.normalize(_, None, 0, 255, NORM_MINMAX, dtype=CV_8U)] computes a
      scale and a shift in double precision, converts both to single
      precision and maps every sample [v] to [v * scale + shift] in single
      precision, rounded to the nearest integer (ties to even) and saturated
      to 0..255; whether the multiplication and the addition are fused into
      one rounding differs between builds and between the vector and the
      scalar part of one image, so it is a parameter, per image shape and
      pixel;
    - OpenCV refuses arrays without pixels;
    - the external process is an oracle from the command line and the bytes
      it is offered to what the script can observe of it: whether it could
      be started, where it stops reading its input if it does, its
      diagnostic text and its exit code;
    - opening the recording and creating the output directory are taken to
      succeed: [main] is given the reader. *)

From Stdlib Require Import String Ascii List Bool Arith ZArith NArith Lia.
From Stdlib Require Import Reals Lra.
From Stdlib Require Import Strings.Byte DecimalString.
Import ListNotations.

Open Scope string_scope.
Open Scope list_scope.
Open Scope N_scope.

(** ** Configuration (lines 8-17) *)

Definition OUTPUT_DIR : string := "output".
Definition ENABLE_COMPRESSION : bool := false.
Definition BITRATE : string := "24000k".

Definition COLOR_TOPIC : string := "/camera/color/image_raw".
Definition DEPTH_TOPIC : string := "/camera/depth/image_rect_raw".
Definition IMU_TOPIC : string := "/imu_raw/Imu".

(** ** Exceptions and results *)

Inductive np_site : Type :=
| Frombuffer   (* buffer size is not a multiple of the element size *)
| Reshape.     (* cannot reshape array of size n into the shape *)

Inductive pyerror : Type :=
| ValueError (site : np_site)   (* numpy: the malformed-frame error *)
| AttributeError                (* the message has no such field *)
| CvError                       (* cv2.error *)
| FileNotFoundError             (* subprocess.Popen: no such program *)
| BrokenPipeError               (* a write to a pipe nobody reads *)
| UnicodeDecodeError.           (* bytes.decode: not UTF-8 *)

Definition result (A : Type) : Type := (pyerror + A)%type.

Definition ok {A} (a : A) : result A := inr a.
Definition raise {A} (e : pyerror) : result A := inl e.

Definition rbind {A B} (m : result A) (k : A -> result B) : result B :=
  match m with
  | inl e => inl e
  | inr a => k a
  end.

Declare Scope result_scope.
Delimit Scope result_scope with result.
Notation "x <- m ;; k" := (rbind m (fun x => k))
  (at level 61, m at next level, right associativity) : result_scope.
Open Scope result_scope.

(** ** Messages and recordings *)

(** The decoded messages the script can meet: [sensor_msgs/Image],
    [sensor_msgs/Imu] and anything else.  Only the fields the script reads
    are kept. *)
Inductive message : Type :=
| ImageMsg (frame_id : string) (height width : N) (data : list byte)
| ImuMsg (frame_id : string)
| OtherMsg.

Record connection : Type := mkConnection {
  topic : string;
  msgtype : string
}.

(** A recording: its connections, and its messages in stored order, each
    with the connection it was recorded on. *)
Record recording : Type := mkRecording {
  connections : list connection;
  stored : list (connection * message)
}.

Definition on_topics (cs : list connection) (cm : connection * message) : bool :=
  existsb (fun c => String.eqb (topic c) (topic (fst cm))) cs.

(** [reader.messages(connections=cs)].  rosbags documents the argument as
    the connections to filter for, an empty iterable disabling the filter:
    with [cs = []] every stored message is produced. *)
Definition reader_messages (r : recording) (cs : list connection)
  : list (connection * message) :=
  match cs with
  | [] => stored r
  | _ :: _ => filter (on_topics cs) (stored r)
  end.

Definition connections_on (t : string) (r : recording) : list connection :=
  filter (fun x => String.eqb (topic x) t) (connections r).

(** ** numpy arrays *)

Record ndarray (A : Type) : Type := mkArray {
  shape : list N;
  flat : list A
}.
Arguments mkArray {A} _ _.
Arguments shape {A} _.
Arguments flat {A} _.

Definition size_of (dims : list N) : N := fold_right N.mul 1 dims.

Definition wf_array {A} (a : ndarray A) : Prop :=
  N.of_nat (length (flat a)) = size_of (shape a).

(** [a.reshape(dims)] *)
Definition reshape {A} (a : ndarray A) (dims : list N) : result (ndarray A) :=
  if N.of_nat (length (flat a)) =? size_of dims
  then ok (mkArray dims (flat a))
  else raise (ValueError Reshape).

(** [np.frombuffer(data, dtype=np.uint8)] *)
Definition frombuffer_uint8 (data : list byte) : result (ndarray byte) :=
  ok (mkArray [N.of_nat (length data)] data).

(** Little-endian 16-bit samples of a byte buffer; [None] when a byte is
    left over. *)
Fixpoint uint16_samples (data : list byte) : option (list Z) :=
  match data with
  | [] => Some []
  | [_] => None
  | lo :: hi :: rest =>
      match uint16_samples rest with
      | Some l => Some ((Z.of_N (Byte.to_N lo) + 256 * Z.of_N (Byte.to_N hi))%Z :: l)
      | None => None
      end
  end.

(** [np.frombuffer(data, dtype=np.uint16)] *)
Definition frombuffer_uint16 (data : list byte) : result (ndarray Z) :=
  match uint16_samples data with
  | Some l => ok (mkArray [N.of_nat (length l)] l)
  | None => raise (ValueError Frombuffer)
  end.

(** [a[r, c, k]] of a three-dimensional array. *)
Definition at3 {A} (a : ndarray A) (r c k : N) : option A :=
  match shape a with
  | [h; w; d] =>
      if (r <? h) && (c <? w) && (k <? d)
      then nth_error (flat a) (N.to_nat ((r * w + c) * d + k))
      else None
  | _ => None
  end.

(** [a[r, c]] of a two-dimensional array. *)
Definition at2 {A} (a : ndarray A) (r c : N) : option A :=
  match shape a with
  | [h; w] =>
      if (r <? h) && (c <? w)
      then nth_error (flat a) (N.to_nat (r * w + c))
      else None
  | _ => None
  end.

(** [a.tobytes()] of a uint8 array. *)
Definition tobytes (a : ndarray byte) : list byte := flat a.

(** ** OpenCV *)

Fixpoint swap_rb (l : list byte) : list byte :=
  match l with
  | c0 :: c1 :: c2 :: rest => c2 :: c1 :: c0 :: swap_rb rest
  | _ => []
  end.

(** [cv2.cvtColor(frame, cv2.COLOR_RGB2BGR)] on an [h x w x 3] uint8 array. *)
Definition cvtColor_RGB2BGR (a : ndarray byte) : result (ndarray byte) :=
  if size_of (shape a) =? 0
  then raise CvError
  else ok (mkArray (shape a) (swap_rb (flat a))).

(** ** Fields of a message *)

Definition msg_data (m : message) : result (list byte) :=
  match m with
  | ImageMsg _ _ _ d => ok d
  | _ => raise AttributeError
  end.

Definition msg_height (m : message) : result N :=
  match m with
  | ImageMsg _ h _ _ => ok h
  | _ => raise AttributeError
  end.

Definition msg_width (m : message) : result N :=
  match m with
  | ImageMsg _ _ w _ => ok w
  | _ => raise AttributeError
  end.

Definition msg_frame_id (m : message) : result string :=
  match m with
  | ImageMsg f _ _ _ => ok f
  | ImuMsg f => ok f
  | OtherMsg => raise AttributeError
  end.

(** ** extract_color_frames (lines 24-42) *)

(** Lines 35-36: the frame of one message. *)
Definition color_frame_of (m : message) : result (ndarray byte) :=
  data <- msg_data m ;;
  buf <- frombuffer_uint8 data ;;
  h <- msg_height m ;;
  w <- msg_width m ;;
  frame <- reshape buf [h; w; 3] ;;
  cvtColor_RGB2BGR frame.

(** [frame.shape[:2]] *)
Definition shape2 {A} (a : ndarray A) : N * N :=
  match shape a with
  | h :: w :: _ => (h, w)
  | _ => (0, 0)
  end.

(** The loop of lines 32-40 over the messages still to come, with the
    values of [color_frames], [frame_width] and [frame_height] so far. *)
Fixpoint color_loop (msgs : list (connection * message))
    (color_frames : list (ndarray byte)) (frame_width frame_height : option N)
  : result (list (ndarray byte) * option N * option N) :=
  match msgs with
  | [] => ok (color_frames, frame_width, frame_height)
  | (_, msg) :: rest =>
      frame <- color_frame_of msg ;;
      let color_frames := color_frames ++ [frame] in
      match frame_width with
      | None =>
          let '(h, w) := shape2 frame in
          color_loop rest color_frames (Some w) (Some h)
      | Some _ => color_loop rest color_frames frame_width frame_height
      end
  end.

Definition extract_color_frames (reader : recording)
  : result (list (ndarray byte) * N * option N * option N) :=
  let fps := 30 in
  let color_connections := connections_on COLOR_TOPIC reader in
  r <- color_loop (reader_messages reader color_connections) [] None None ;;
  let '(color_frames, frame_width, frame_height) := r in
  ok (color_frames, fps, frame_width, frame_height).

(** ** extract_depth_frames (lines 45-61) *)

Definition list_min (l : list Z) : Z := fold_right Z.min (hd 0%Z l) l.
Definition list_max (l : list Z) : Z := fold_right Z.max (hd 0%Z l) l.

(** [n / d] rounded to the nearest integer, ties to the even one ([d > 0]). *)
Definition round_half_even (n d : Z) : Z :=
  let q := (n / d)%Z in
  let r := (n mod d)%Z in
  if (2 * r <? d)%Z then q
  else if (d <? 2 * r)%Z then (q + 1)%Z
  else if Z.even q then q else (q + 1)%Z.

(** [saturate_cast<uchar>] *)
Definition saturate_uint8 (v : Z) : Z := Z.max 0 (Z.min 255 v).

(** *** Binary floating point

    A finite binary floating-point number is a mantissa and an exponent,
    [(m, e)] standing for [m * 2^e].  Rounding to [p] significant bits is to
    the nearest, ties to even; exponent range is not modelled: the numbers
    met here stay far from overflow and underflow. *)

Open Scope Z_scope.

Definition dyadic : Type := (Z * Z)%type.

Definition rnd_shift (p m : Z) : Z := Z.max 0 (Z.log2 (Z.abs m) + 1 - p).

Definition rnd (p : Z) (d : dyadic) : dyadic :=
  let k := rnd_shift p (fst d) in
  (round_half_even (fst d) (2 ^ k), snd d + k).

Definition dmul (a b : dyadic) : dyadic := (fst a * fst b, snd a + snd b).

Definition dadd (a b : dyadic) : dyadic :=
  let e := Z.min (snd a) (snd b) in
  (fst a * 2 ^ (snd a - e) + fst b * 2 ^ (snd b - e), e).

Definition dneg (a : dyadic) : dyadic := (- fst a, snd a).

(** [1 / r] rounded to [p] bits, for [r >= 1]. *)
Definition dinv (p : Z) (r : Z) : dyadic :=
  let k := p + Z.log2 r in (round_half_even (2 ^ k) r, - k).

Definition of_Z (n : Z) : dyadic := (n, 0).

(** [cvRound]: to the nearest integer, ties to even. *)
Definition cvRound (d : dyadic) : Z :=
  if 0 <=? snd d then fst d * 2 ^ snd d
  else round_half_even (fst d) (2 ^ (- snd d)).

(** [scale = (255 - 0) * (1. / (smax - smin))], in double precision. *)
Definition scale_of (smin smax : Z) : dyadic :=
  rnd 53 (dmul (of_Z 255) (dinv 53 (smax - smin))).

(** [shift = 0 - smin * scale], in double precision. *)
Definition shift_of (smin smax : Z) : dyadic :=
  rnd 53 (dadd (of_Z 0) (dneg (rnd 53 (dmul (of_Z smin) (scale_of smin smax))))).

(** [v * a + b] in single precision, with one rounding when the
    multiplication and the addition are fused, with two otherwise. *)
Definition scaled (fused : bool) (a b : dyadic) (v : Z) : dyadic :=
  if fused then rnd 24 (dadd (dmul (of_Z v) a) b)
  else rnd 24 (dadd (rnd 24 (dmul (of_Z v) a)) b).

(** The value [cv2.normalize(..., 0, 255, NORM_MINMAX, dtype=CV_8U)] gives a
    sample [v] of an array whose least and greatest samples are [smin] and
    [smax]; the scale is 0 when the range is empty. *)
Definition normalize_value (fused : bool) (smin smax v : Z) : Z :=
  if 0 <? smax - smin then
    let a := rnd 24 (scale_of smin smax) in
    let b := rnd 24 (shift_of smin smax) in
    saturate_uint8 (cvRound (scaled fused a b v))
  else 0.

Close Scope Z_scope.

(** The real number a floating-point number stands for. *)
Definition bpow (e : Z) : R := powerRZ 2 e.
Definition val (d : dyadic) : R := (IZR (fst d) * bpow (snd d))%R.

(** [f i x] for every element [x] of a list, [i] its position counted from
    [start]. *)
Fixpoint mapi_from {A B} (f : nat -> A -> B) (start : nat) (l : list A) : list B :=
  match l with
  | [] => []
  | x :: rest => f start x :: mapi_from f (S start) rest
  end.

Definition mapi {A B} (f : nat -> A -> B) (l : list A) : list B := mapi_from f 0 l.

(** Lines 53-57: the 16-bit samples of one message, and their normalized
    8-bit image. *)
Definition depth_samples_of (m : message) : result (ndarray Z) :=
  data <- msg_data m ;;
  buf <- frombuffer_uint16 data ;;
  h <- msg_height m ;;
  w <- msg_width m ;;
  reshape buf [h; w].

Section ColorMap.

(** Whether, in an image of a given shape, the pixel at a position of the
    flattened image is computed with a fused multiplication and addition. *)
Variable fma : list N -> nat -> bool.

Definition normalize_minmax (a : ndarray Z) : result (ndarray Z) :=
  if size_of (shape a) =? 0
  then raise CvError
  else
    let smin := list_min (flat a) in
    let smax := list_max (flat a) in
    ok (mkArray (shape a)
          (mapi (fun i v => normalize_value (fma (shape a) i) smin smax v) (flat a))).

Definition depth_normalized_of (m : message) : result (ndarray Z) :=
  depth_frame <- depth_samples_of m ;;
  normalize_minmax depth_frame.

(** The 256 entries of [cv2.COLORMAP_TURBO], as (blue, green, red). *)
Variable turbo : Z -> byte * byte * byte.

Definition bgr_bytes (p : byte * byte * byte) : list byte :=
  let '(b, g, r) := p in [b; g; r].

(** [cv2.applyColorMap(a, cv2.COLORMAP_TURBO)] on an 8-bit image. *)
Definition applyColorMap (a : ndarray Z) : result (ndarray byte) :=
  ok (mkArray (shape a ++ [3]) (flat_map (fun v => bgr_bytes (turbo v)) (flat a))).

Definition depth_frame_of (m : message) : result (ndarray byte) :=
  depth_normalized <- depth_normalized_of m ;;
  applyColorMap depth_normalized.

Fixpoint depth_loop (msgs : list (connection * message))
    (depth_frames : list (ndarray byte)) : result (list (ndarray byte)) :=
  match msgs with
  | [] => ok depth_frames
  | (_, msg) :: rest =>
      depth_colored <- depth_frame_of msg ;;
      depth_loop rest (depth_frames ++ [depth_colored])
  end.

Definition extract_depth_frames (reader : recording)
  : result (list (ndarray byte)) :=
  let depth_connections := connections_on DEPTH_TOPIC reader in
  depth_loop (reader_messages reader depth_connections) [].

End ColorMap.

(** ** What the script does to the outside *)

Inductive event : Type :=
| EvMkdir (path : string)
| EvPrint (line : string)
| EvPopen (cmd : list string)         (* subprocess.Popen is called with cmd *)
| EvStdinWrite (chunk : list byte)    (* a write that went through *)
| EvStdinClose                        (* a close that went through *)
| EvStderrRead
| EvWait.

(** A run: the events so far, and how it ended. *)
Definition io (A : Type) : Type := (list event * result A)%type.

Definition io_ret {A} (a : A) : io A := ([], ok a).
Definition emit (e : event) : io unit := ([e], ok tt).
Definition lift {A} (r : result A) : io A := ([], r).

Definition io_bind {A B} (m : io A) (k : A -> io B) : io B :=
  match snd m with
  | inl e => (fst m, inl e)
  | inr a => (fst m ++ fst (k a), snd (k a))
  end.

Notation "x <~ m ;; k" := (io_bind m (fun x => k))
  (at level 61, m at next level, right associativity) : result_scope.
Notation "m ;;; k" := (io_bind m (fun _ => k))
  (at level 61, right associativity) : result_scope.

(** ** extract_imu_data (lines 64-69) *)

Fixpoint imu_loop (msgs : list (connection * message)) : io unit :=
  match msgs with
  | [] => io_ret tt
  | (_, msg) :: rest =>
      frame_id <~ lift (msg_frame_id msg) ;;
      emit (EvPrint frame_id) ;;;
      imu_loop rest
  end.

Definition extract_imu_data (reader : recording) : io unit :=
  let imu_connections := connections_on IMU_TOPIC reader in
  imu_loop (reader_messages reader imu_connections).

(** ** create_video (lines 72-110) *)

(** [str(n)] of a non-negative integer. *)
Definition str (n : N) : string := NilZero.string_of_uint (N.to_uint n).

Definition codec_of (enable_compression : bool) : string :=
  if enable_compression then "libx264" else "mpeg4".

Definition crf_of (enable_compression : bool) : string :=
  if enable_compression then "23" else "0".

(** Lines 80-91: the arguments up to the preset. *)
Definition base_cmd (fps width height : N) (enable_compression : bool)
  : list string :=
  let codec := codec_of enable_compression in
  let crf := crf_of enable_compression in
  [ "ffmpeg";
    "-y";
    "-f"; "rawvideo";
    "-pixel_format"; "bgr24";
    "-video_size"; (str width ++ "x" ++ str height)%string;
    "-framerate"; str fps;
    "-i"; "pipe:";
    "-c:v"; codec;
    "-crf"; crf;
    "-preset"; "medium" ].

(** Lines 93-96. *)
Definition build_cmd (output_path : string) (fps width height : N)
    (enable_compression : bool) : list string :=
  let cmd := base_cmd fps width height enable_compression in
  let cmd := if enable_compression then cmd ++ ["-b:v"; BITRATE] else cmd in
  cmd ++ [output_path].

(** What the script can observe of one external process, which is taken to
    end: a process that never exits, or that waits for its diagnostic text
    to be read while the script waits for it to read, is not modelled.  The
    operations on its standard input are numbered from 0: the writes of the
    frames in order, then the close. *)
Record process : Type := mkProcess {
  starts : bool;
    (* false: the program cannot be started, Popen raises *)
  breaks_at : option nat;
    (* Some k: the process has stopped reading by operation k on its
       standard input, which raises; None: it reads to the end *)
  stderr_text : option string;
    (* what it leaves on its standard error, decoded; None when that is
       not UTF-8 *)
  returncode : Z
}.

Definition breaks_here (b : option nat) (i : nat) : bool :=
  match b with
  | Some k => Nat.eqb k i
  | None => false
  end.

(** The process was started and read all of its input. *)
Definition reads_all (p : process) : Prop :=
  starts p = true /\ breaks_at p = None.

(** Lines 100-101, from the write numbered [i]. *)
Fixpoint write_frames (b : option nat) (i : nat) (chunks : list (list byte))
  : io unit :=
  match chunks with
  | [] => io_ret tt
  | chunk :: rest =>
      if breaks_here b i
      then lift (raise BrokenPipeError)
      else emit (EvStdinWrite chunk) ;;; write_frames b (S i) rest
  end.

Section Process.

(** The external process: from its command line and the bytes it is offered
    on its standard input to what the script observes of it. *)
Variable ffmpeg : list string -> list byte -> process.

Definition create_video (frames : list (ndarray byte)) (output_path : string)
    (fps width height : N) (enable_compression : bool) : io unit :=
  match frames with
  | [] => emit (EvPrint ("No frames to write for " ++ output_path)%string)
  | _ :: _ =>
      let cmd := build_cmd output_path fps width height enable_compression in
      let process := ffmpeg cmd (concat (map tobytes frames)) in
      emit (EvPopen cmd) ;;;
      (if starts process then io_ret tt else lift (raise FileNotFoundError)) ;;;
      write_frames (breaks_at process) 0 (map tobytes frames) ;;;
      (if breaks_here (breaks_at process) (length frames)
       then lift (raise BrokenPipeError)
       else emit EvStdinClose) ;;;
      emit EvStderrRead ;;;
      stderr <~ lift (match stderr_text process with
                      | Some text => ok text
                      | None => raise UnicodeDecodeError
                      end) ;;
      emit EvWait ;;;
      if negb (returncode process =? 0)%Z
      then emit (EvPrint ("Error creating video: " ++ stderr)%string)
      else emit (EvPrint ("Video saved to " ++ output_path)%string)
  end.

(** ** main (lines 113-149) *)

Variable fma : list N -> nat -> bool.
Variable turbo : Z -> byte * byte * byte.

Definition nonempty {A} (l : list A) : bool :=
  match l with [] => false | _ :: _ => true end.

Definition main (reader : recording) : io unit :=
  emit (EvMkdir OUTPUT_DIR) ;;;
  emit (EvPrint "Extracting IMU data...") ;;;
  extract_imu_data reader ;;;
  emit (EvPrint "Extracting color frames...") ;;;
  c <~ lift (extract_color_frames reader) ;;
  let '(color_frames, fps, width, height) := c in
  emit (EvPrint "Extracting depth frames...") ;;;
  depth_frames <~ lift (extract_depth_frames fma turbo reader) ;;
  match width, height with
  | Some width, Some height =>
      (if nonempty color_frames
       then create_video color_frames (OUTPUT_DIR ++ "/color_video.mp4")%string
              fps width height ENABLE_COMPRESSION
       else io_ret tt) ;;;
      (if nonempty depth_frames
       then create_video depth_frames (OUTPUT_DIR ++ "/depth_video.mp4")%string
              fps width height ENABLE_COMPRESSION
       else io_ret tt)
  | _, _ => emit (EvPrint "Error: Could not determine frame size.")
  end.

End Process.

(** Lines 131-149 of [main]: the two calls of the encoder. *)
Definition encode_videos (ffmpeg : list string -> list byte -> process)
    (color_frames depth_frames : list (ndarray byte)) (fps w h : N) : io unit :=
  io_bind
    (if nonempty color_frames
     then create_video ffmpeg color_frames "output/color_video.mp4" fps w h false
     else io_ret tt)
    (fun _ =>
       if nonempty depth_frames
       then create_video ffmpeg depth_frames "output/depth_video.mp4" fps w h false
       else io_ret tt).

(** ** Reading a run *)

Definition popen_cmds (t : list event) : list (list string) :=
  flat_map (fun e => match e with EvPopen c => [c] | _ => [] end) t.

Definition stdin_bytes (t : list event) : list byte :=
  flat_map (fun e => match e with EvStdinWrite b => b | _ => [] end) t.

Definition printed (t : list event) : list string :=
  flat_map (fun e => match e with EvPrint s => [s] | _ => [] end) t.

(** The line the encoder ends on, from the process's text and exit code
    (lines 107-110). *)
Definition report (output_path : string) (outcome : string * Z) : string :=
  if negb (snd outcome =? 0)%Z
  then ("Error creating video: " ++ fst outcome)%string
  else ("Video saved to " ++ output_path)%string.

(** What the encoder does once every frame is written, when the process
    read them all (lines 103-110). *)
Definition encoder_tail (output_path : string) (p : process) : io unit :=
  match stderr_text p with
  | None => ([EvStdinClose; EvStderrRead], raise UnicodeDecodeError)
  | Some text =>
      ([EvStdinClose; EvStderrRead; EvWait;
        EvPrint (report output_path (text, returncode p))], ok tt)
  end.

(** [a] directly followed by [b] in an argument list. *)
Definition adjacent (a b : string) (l : list string) : Prop :=
  exists pre post, l = pre ++ a :: b :: post.

(** The message is an image that declares [h] rows and [w] columns. *)
Definition declares (h w : N) (m : message) : Prop :=
  match m with
  | ImageMsg _ h' w' _ => h' = h /\ w' = w
  | _ => False
  end.

(** A valid colour message: an image of at least one pixel whose buffer
    holds three bytes for every pixel. *)
Definition valid_color (m : message) : Prop :=
  match m with
  | ImageMsg _ h w data => N.of_nat (length data) = h * w * 3 /\ 0 < h * w
  | _ => False
  end.

(** A valid depth message: an image of at least one pixel whose buffer
    holds two bytes for every pixel. *)
Definition valid_depth (m : message) : Prop :=
  match m with
  | ImageMsg _ h w data => N.of_nat (length data) = h * w * 2 /\ 0 < h * w
  | _ => False
  end.

(** The resolution the colour loop reports: the one it had, or that of the
    first frame it appended. *)
Definition first_dims (fw fh : option N) (new : list (ndarray byte))
  : option N * option N :=
  match fw, new with
  | Some _, _ => (fw, fh)
  | None, [] => (None, fh)
  | None, f :: _ => (Some (snd (shape2 f)), Some (fst (shape2 f)))
  end.

(** ** Sample inputs *)

Definition ffmpeg_succeeds (cmd : list string) (input : list byte) : process :=
  mkProcess true None (Some "") 0%Z.


(** A process that gives up before it reads anything. *)
Definition ffmpeg_exits_early (cmd : list string) (input : list byte) : process :=
  mkProcess true (Some 0%nat) (Some "Unknown encoder") 1%Z.


(** A platform that fuses everywhere. *)
Definition sample_fma (shape : list N) (position : nat) : bool := true.

Definition sample_colormap (v : Z) : byte * byte * byte :=
  if (v =? 0)%Z then (x3b, x12, x30)
  else if (v =? 255)%Z then (x03, x04, x7a)
  else (x80, x80, x80).

Definition color_conn : connection := mkConnection COLOR_TOPIC "sensor_msgs/msg/Image".
Definition depth_conn : connection := mkConnection DEPTH_TOPIC "sensor_msgs/msg/Image".
Definition other_conn : connection := mkConnection "/camera/infra/image_raw" "sensor_msgs/msg/Image".

(** One red-green-blue pixel (10, 20, 30). *)
Definition rgb_1x1 : message := ImageMsg "camera_color" 1 1 [x0a; x14; x1e].
Definition rgb_1x2 : message :=
  ImageMsg "camera_color" 1 2 [x0a; x14; x1e; x0a; x14; x1e].
(** Two depth samples, 0 and 1000. *)
Definition depth_1x2 : message := ImageMsg "camera_depth" 1 2 [x00; x00; xe8; x03].

(** A 1x1 colour stream next to a 1x2 depth stream. *)
Definition rec_two_resolutions : recording :=
  mkRecording [color_conn; depth_conn]
    [(color_conn, rgb_1x1); (depth_conn, depth_1x2)].

(** A colour stream whose resolution changes. *)
Definition rec_resized : recording :=
  mkRecording [color_conn] [(color_conn, rgb_1x1); (color_conn, rgb_1x2)].

(** No colour connection, a depth connection without messages, and an image
    on another topic. *)
Definition rec_foreign_image : recording :=
  mkRecording [depth_conn; other_conn] [(other_conn, rgb_1x1)].

(** A colour connection and a depth stream, but no colour message. *)
Definition rec_no_color_message : recording :=
  mkRecording [color_conn; depth_conn] [(depth_conn, depth_1x2)].

(** A colour stream whose second message lost two of its three bytes. *)
Definition rec_truncated : recording :=
  mkRecording [color_conn]
    [(color_conn, rgb_1x1); (color_conn, ImageMsg "camera_color" 1 1 [x0a])].

(** The frames of the sample messages. *)
Definition bgr_1x1 : ndarray byte := mkArray [1; 1; 3] [x1e; x14; x0a].
Definition bgr_1x2 : ndarray byte :=
  mkArray [1; 2; 3] [x1e; x14; x0a; x1e; x14; x0a].
Definition depth_colored_1x2 : ndarray byte :=
  mkArray [1; 2; 3] [x3b; x12; x30; x03; x04; x7a].

(** [msg.data] of an image, nothing for another message. *)
Definition msg_pixels (m : message) : list byte :=
  match m with
  | ImageMsg _ _ _ d => d
  | _ => []
  end.

Definition imu_conn : connection := mkConnection IMU_TOPIC "sensor_msgs/msg/Imu".
Definition tf_conn : connection := mkConnection "/tf" "tf2_msgs/msg/TFMessage".

(** Two inertial samples between the images of a 1x1 colour stream and a
    1x2 depth stream. *)
Definition rec_with_imu : recording :=
  mkRecording [color_conn; depth_conn; imu_conn]
    [(imu_conn, ImuMsg "imu_link"); (color_conn, rgb_1x1);
     (imu_conn, ImuMsg "imu_link_2"); (depth_conn, depth_1x2)].

(** No inertial connection: an inertial-free recording with a transform
    message, which has no header. *)
Definition rec_headerless : recording :=
  mkRecording [color_conn; tf_conn]
    [(color_conn, rgb_1x1); (tf_conn, OtherMsg); (color_conn, rgb_1x1)].

(** A depth image of two equal samples (500, 500). *)
Definition depth_flat_1x2 : message :=
  ImageMsg "camera_depth" 1 2 [xf4; x01; xf4; x01].

(** Two more pixels, two depth samples the other way round (1000, 0), and
    three depth samples far from zero (50000, 50006, 50007). *)
Definition rgb_1x2b : message :=
  ImageMsg "camera_color" 1 2 [x01; x02; x03; x04; x05; x06].
Definition depth_1x2b : message := ImageMsg "camera_depth" 1 2 [xe8; x03; x00; x00].
Definition depth_1x3 : message :=
  ImageMsg "camera_depth" 1 3 [x50; xc3; x56; xc3; x57; xc3].

(** Two colour and two depth images of one resolution, interleaved. *)
Definition rec_two_frames : recording :=
  mkRecording [color_conn; depth_conn]
    [(color_conn, rgb_1x2); (depth_conn, depth_1x2);
     (color_conn, rgb_1x2b); (depth_conn, depth_1x2b)].

(** A depth stream whose images differ in size and in range. *)
Definition rec_depth_ranges : recording :=
  mkRecording [depth_conn] [(depth_conn, depth_1x2); (depth_conn, depth_1x3)].

Definition bgr_1x2b : ndarray byte :=
  mkArray [1; 2; 3] [x03; x02; x01; x06; x05; x04].
Definition depth_colored_1x2b : ndarray byte :=
  mkArray [1; 2; 3] [x03; x04; x7a; x3b; x12; x30].
Definition depth_colored_1x3 : ndarray byte :=
  mkArray [1; 3; 3] [x3b; x12; x30; x80; x80; x80; x03; x04; x7a].

(** * Properties *)

(** ** The result monads *)

Lemma rbind_ok {A B} (m : result A) (k : A -> result B) (b : B) :
  rbind m k = ok b -> exists a, m = ok a /\ k a = ok b.
Proof.
  destruct m as [e | a]; simpl; intros H; [discriminate | eauto].
Qed.

Lemma reshape_ok {A} (a : ndarray A) (dims : list N) :
  N.of_nat (length (flat a)) = size_of dims ->
  reshape a dims = ok (mkArray dims (flat a)).
Proof.
  intros H. unfold reshape. rewrite H, N.eqb_refl. reflexivity.
Qed.

Lemma reshape_error {A} (a : ndarray A) (dims : list N) :
  N.of_nat (length (flat a)) <> size_of dims ->
  reshape a dims = raise (ValueError Reshape).
Proof.
  intros H. unfold reshape.
  destruct (N.eqb_spec (N.of_nat (length (flat a))) (size_of dims)); [contradiction | reflexivity].
Qed.

(** ** The channel swap *)

Lemma swap_rb_length (n : nat) : forall l : list byte,
  length l = (3 * n)%nat -> length (swap_rb l) = length l.
Proof.
  induction n as [| n IH]; intros l Hl.
  - destruct l; [reflexivity | discriminate].
  - destruct l as [| c0 [| c1 [| c2 rest]]]; simpl in Hl; try lia.
    simpl. rewrite (IH rest) by lia. reflexivity.
Qed.

Lemma swap_rb_nth_error (p : nat) : forall l : list byte,
  (3 * p + 2 < length l)%nat ->
  nth_error (swap_rb l) (3 * p) = nth_error l (3 * p + 2) /\
  nth_error (swap_rb l) (3 * p + 1) = nth_error l (3 * p + 1) /\
  nth_error (swap_rb l) (3 * p + 2) = nth_error l (3 * p).
Proof.
  induction p as [| p IH]; intros l Hl;
    destruct l as [| c0 [| c1 [| c2 rest]]]; simpl in Hl; try lia.
  - repeat split; reflexivity.
  - replace (3 * S p)%nat with (S (S (S (3 * p)))) by lia.
    simpl. apply IH. lia.
Qed.

Lemma pixel_offset (h w r c k : N) :
  r < h -> c < w -> k < 3 ->
  N.to_nat ((r * w + c) * 3 + k) = (3 * N.to_nat (r * w + c) + N.to_nat k)%nat /\
  (r * w + c) * 3 + 2 < h * w * 3.
Proof.
  intros Hr Hc Hk. split; [lia | nia].
Qed.

Lemma at3_in_range {A} (h w : N) (l : list A) (r c k : N) :
  r < h -> c < w -> k < 3 ->
  at3 (mkArray [h; w; 3] l) r c k =
  nth_error l (3 * N.to_nat (r * w + c) + N.to_nat k).
Proof.
  intros Hr Hc Hk. unfold at3. cbn [shape flat].
  destruct (pixel_offset h w r c k Hr Hc Hk) as [E _]. rewrite E.
  apply N.ltb_lt in Hr, Hc, Hk. rewrite Hr, Hc, Hk. reflexivity.
Qed.

(** One colour message: a buffer of [height * width * 3] bytes, for an
    image with at least one pixel, is turned into a frame of shape
    [height, width, 3] that the loop appends; at every row and column the
    frame's channel 0 is the source's channel 2, its channel 2 the source's
    channel 0, and channel 1 is the source's channel 1. *)
Lemma color_frame_of_swaps (frame_id : string) (h w : N) (data : list byte) :
  N.of_nat (length data) = h * w * 3 ->
  0 < h * w ->
  let msg := ImageMsg frame_id h w data in
  let source := mkArray [h; w; 3] data in
  exists frame,
    color_frame_of msg = ok frame /\
    shape frame = [h; w; 3] /\
    (forall conn rest frames fw fh,
        color_loop ((conn, msg) :: rest) frames fw fh =
        color_loop rest (frames ++ [frame])
          (match fw with None => Some w | Some _ => fw end)
          (match fw with None => Some h | Some _ => fh end)) /\
    (forall r c, r < h -> c < w ->
        at3 frame r c 0 = at3 source r c 2 /\
        at3 frame r c 2 = at3 source r c 0 /\
        at3 frame r c 1 = at3 source r c 1 /\
        at3 source r c 0 <> None /\
        at3 source r c 1 <> None /\
        at3 source r c 2 <> None).
Proof.
  intros Hlen Hpix msg source.
  assert (Hsize : size_of [h; w; 3] = h * w * 3) by (simpl; lia).
  assert (Hframe : color_frame_of msg = ok (mkArray [h; w; 3] (swap_rb data))).
  { unfold color_frame_of, msg. simpl.
    rewrite reshape_ok by (simpl flat; lia). simpl rbind.
    unfold cvtColor_RGB2BGR. simpl shape. rewrite Hsize.
    destruct (N.eqb_spec (h * w * 3) 0); [lia | reflexivity]. }
  exists (mkArray [h; w; 3] (swap_rb data)).
  split; [exact Hframe |]. split; [reflexivity |]. split.
  - intros conn rest frames fw fh. simpl color_loop. rewrite Hframe. simpl.
    destruct fw; reflexivity.
  - intros r c Hr Hc.
    assert (Hp : (3 * N.to_nat (r * w + c) + 2 < length data)%nat).
    { destruct (pixel_offset h w r c 2 Hr Hc) as [_ Hb]; lia. }
    destruct (swap_rb_nth_error (N.to_nat (r * w + c)) data Hp) as (H0 & H1 & H2).
    unfold source. rewrite !at3_in_range by lia.
    change (N.to_nat 0) with 0%nat. change (N.to_nat 1) with 1%nat.
    change (N.to_nat 2) with 2%nat. rewrite Nat.add_0_r.
    rewrite H0, H1, H2.
    repeat split; try reflexivity; apply nth_error_Some; lia.
Qed.

(** ** Min-max normalization *)

Lemma fold_min_le (d : Z) (l : list Z) :
  (fold_right Z.min d l <= d)%Z /\
  (forall x, In x l -> (fold_right Z.min d l <= x)%Z) /\
  In (fold_right Z.min d l) (d :: l).
Proof.
  induction l as [| a l (IHd & IHle & IHin)]; simpl.
  - split; [lia |]. split; [contradiction | auto].
  - split; [lia |]. split.
    + intros x [-> | Hx]; [lia |]. specialize (IHle x Hx). lia.
    + destruct (Z.min_spec a (fold_right Z.min d l)) as [[_ ->] | [_ ->]]; [auto |].
      destruct IHin as [<- | Hin]; auto.
Qed.

Lemma fold_max_ge (d : Z) (l : list Z) :
  (d <= fold_right Z.max d l)%Z /\
  (forall x, In x l -> (x <= fold_right Z.max d l)%Z) /\
  In (fold_right Z.max d l) (d :: l).
Proof.
  induction l as [| a l (IHd & IHle & IHin)]; simpl.
  - split; [lia |]. split; [contradiction | auto].
  - split; [lia |]. split.
    + intros x [-> | Hx]; [lia |]. specialize (IHle x Hx). lia.
    + destruct (Z.max_spec a (fold_right Z.max d l)) as [[_ ->] | [_ ->]]; [| auto].
      destruct IHin as [<- | Hin]; auto.
Qed.

Lemma list_min_spec (l : list Z) :
  l <> [] ->
  In (list_min l) l /\ forall x, In x l -> (list_min l <= x)%Z.
Proof.
  intros Hne. unfold list_min.
  destruct (fold_min_le (hd 0%Z l) l) as (_ & Hle & Hin).
  split; [| exact Hle].
  destruct Hin as [E | Hin]; [| exact Hin].
  rewrite <- E. destruct l; [contradiction | left; reflexivity].
Qed.

Lemma list_max_spec (l : list Z) :
  l <> [] ->
  In (list_max l) l /\ forall x, In x l -> (x <= list_max l)%Z.
Proof.
  intros Hne. unfold list_max.
  destruct (fold_max_ge (hd 0%Z l) l) as (_ & Hle & Hin).
  split; [| exact Hle].
  destruct Hin as [E | Hin]; [| exact Hin].
  rewrite <- E. destruct l; [contradiction | left; reflexivity].
Qed.

Lemma round_half_even_exact (q d : Z) :
  (0 < d)%Z -> round_half_even (q * d) d = q.
Proof.
  intros Hd. unfold round_half_even.
  rewrite Z.div_mul, Z.mod_mul by lia.
  destruct (Z.ltb_spec (2 * 0) d); [reflexivity | lia].
Qed.

(** *** Rounding to the nearest integer *)

Open Scope Z_scope.
Lemma round_half_even_bound (n d : Z) :
  0 < d -> 2 * Z.abs (d * round_half_even n d - n) <= d.
Proof.
  intros Hd. unfold round_half_even.
  pose proof (Z.div_mod n d ltac:(lia)) as E.
  pose proof (Z.mod_pos_bound n d Hd) as B.
  set (q := n / d) in *. set (r := n mod d) in *.
  destruct (Z.ltb_spec (2 * r) d); [lia |].
  destruct (Z.ltb_spec d (2 * r)); [lia |].
  destruct (Z.even q); lia.
Qed.

Lemma round_half_even_nearest (N n d : Z) :
  0 < d -> 2 * Z.abs (n * d - N) < d -> round_half_even N d = n.
Proof.
  intros Hd Hn.
  pose proof (round_half_even_bound N d Hd) as B.
  set (m := round_half_even N d) in *.
  assert (Z.abs (d * (m - n)) < 2 * d) by lia.
  assert (Z.abs (m - n) < 2) by nia.
  assert (m - n = 0 \/ m - n = 1 \/ m - n = -1) as [H1 | [H1 | H1]] by lia.
  - lia.
  - exfalso. replace m with (n + 1) in B by lia.
    unfold m in H1. clear m B H H0.
    unfold round_half_even in H1.
    pose proof (Z.div_mod N d ltac:(lia)) as E.
    pose proof (Z.mod_pos_bound N d Hd) as B.
    set (q := N / d) in *. set (r := N mod d) in *.
    destruct (Z.ltb_spec (2 * r) d); [nia |].
    destruct (Z.ltb_spec d (2 * r)); [nia |].
    destruct (Z.even q); nia.
  - exfalso. unfold m in H1. clear m B H H0.
    unfold round_half_even in H1.
    pose proof (Z.div_mod N d ltac:(lia)) as E.
    pose proof (Z.mod_pos_bound N d Hd) as B.
    set (q := N / d) in *. set (r := N mod d) in *.
    destruct (Z.ltb_spec (2 * r) d); [nia |].
    destruct (Z.ltb_spec d (2 * r)); [nia |].
    destruct (Z.even q); nia.
Qed.

(** *** The value of a floating-point number, and the error of rounding *)

Open Scope R_scope.

Lemma bpow_pos (e : Z) : 0 < bpow e.
Proof. apply powerRZ_lt. lra. Qed.

Lemma bpow_add (a b : Z) : bpow (a + b) = bpow a * bpow b.
Proof. apply powerRZ_add. lra. Qed.

Lemma bpow_neg (e : Z) : bpow (- e) = / bpow e.
Proof. apply powerRZ_neg'. Qed.

Lemma bpow_IZR (k : Z) : (0 <= k)%Z -> bpow k = IZR (2 ^ k).
Proof.
  intros Hk. unfold bpow. rewrite <- (Z2Nat.id k Hk).
  rewrite <- pow_powerRZ, pow_IZR. reflexivity.
Qed.

Lemma bpow_inv_l (e : Z) : bpow (- e) * bpow e = 1.
Proof. rewrite bpow_neg. apply Rinv_l. pose proof (bpow_pos e). lra. Qed.

Lemma val_dmul (a b : dyadic) : val (dmul a b) = val a * val b.
Proof.
  unfold val, dmul. cbn [fst snd]. rewrite mult_IZR, bpow_add. ring.
Qed.

Lemma val_dneg (a : dyadic) : val (dneg a) = - val a.
Proof. unfold val, dneg. cbn [fst snd]. rewrite opp_IZR. ring. Qed.

Lemma val_of_Z (n : Z) : val (of_Z n) = IZR n.
Proof. unfold val, of_Z, bpow. cbn [fst snd]. rewrite powerRZ_O. ring. Qed.

Lemma val_shift (m e j : Z) : (0 <= j)%Z -> val (m * 2 ^ j, e)%Z = val (m, e + j)%Z.
Proof.
  intros Hj. unfold val. cbn [fst snd].
  rewrite mult_IZR, bpow_add, (bpow_IZR j Hj). ring.
Qed.

Lemma val_dadd (a b : dyadic) : val (dadd a b) = val a + val b.
Proof.
  destruct a as [ma ea], b as [mb eb]. unfold dadd. cbn [fst snd].
  set (e := Z.min ea eb).
  unfold val at 1. cbn [fst snd]. rewrite plus_IZR, Rmult_plus_distr_r.
  f_equal.
  - change (IZR (ma * 2 ^ (ea - e)) * bpow e) with (val (ma * 2 ^ (ea - e), e)%Z).
    rewrite val_shift by lia. replace (e + (ea - e))%Z with ea by lia. reflexivity.
  - change (IZR (mb * 2 ^ (eb - e)) * bpow e) with (val (mb * 2 ^ (eb - e), e)%Z).
    rewrite val_shift by lia. replace (e + (eb - e))%Z with eb by lia. reflexivity.
Qed.

Lemma rnd_int_err (p m : Z) :
  (1 <= p)%Z ->
  (2 ^ p * Z.abs (round_half_even m (2 ^ rnd_shift p m) * 2 ^ rnd_shift p m - m)
   <= Z.abs m)%Z.
Proof.
  intros Hp. unfold rnd_shift.
  destruct (Z.max_spec 0 (Z.log2 (Z.abs m) + 1 - p)) as [[Hk ->] | [Hk ->]].
  - assert (Hm : (0 < Z.abs m)%Z).
    { destruct (Z.eq_dec m 0) as [E | Hne]; [| lia].
      rewrite E in Hk. change (Z.log2 (Z.abs 0)) with 0%Z in Hk. lia. }
    set (k := (Z.log2 (Z.abs m) + 1 - p)%Z) in *.
    pose proof (Z.log2_spec (Z.abs m) Hm) as [Hlo _].
    replace (Z.log2 (Z.abs m)) with (k + (p - 1))%Z in Hlo by (unfold k; lia).
    rewrite Z.pow_add_r in Hlo by lia.
    assert (Hd : (0 < 2 ^ k)%Z) by (apply Z.pow_pos_nonneg; lia).
    pose proof (round_half_even_bound m (2 ^ k) Hd) as B.
    replace (2 ^ p)%Z with (2 * 2 ^ (p - 1))%Z
      by (rewrite <- Z.pow_succ_r by lia; f_equal; lia).
    assert (Hp1 : (0 < 2 ^ (p - 1))%Z) by (apply Z.pow_pos_nonneg; lia).
    replace (round_half_even m (2 ^ k) * 2 ^ k - m)%Z
      with (2 ^ k * round_half_even m (2 ^ k) - m)%Z by ring.
    nia.
  - change (2 ^ 0)%Z with 1%Z.
    replace m with (m * 1)%Z at 1 by ring.
    rewrite round_half_even_exact by lia.
    replace (m * 1 - m)%Z with 0%Z by ring. simpl. lia.
Qed.

Lemma rnd_int_exact (p m m0 j : Z) :
  (1 <= p)%Z -> (0 <= j)%Z -> m = (m0 * 2 ^ j)%Z -> (Z.abs m0 < 2 ^ p)%Z ->
  (round_half_even m (2 ^ rnd_shift p m) * 2 ^ rnd_shift p m = m)%Z.
Proof.
  intros Hp Hj -> Hm0.
  set (k := rnd_shift p (m0 * 2 ^ j)).
  assert (Hk : (0 <= k <= j)%Z).
  { unfold k, rnd_shift. split; [lia |].
    destruct (Z.eq_dec m0 0) as [-> | Hne].
    - rewrite Z.mul_0_l. change (Z.log2 (Z.abs 0)) with 0%Z. lia.
    - rewrite Z.abs_mul, (Z.abs_eq (2 ^ j)) by (apply Z.pow_nonneg; lia).
      rewrite Z.log2_mul_pow2 by lia.
      assert (Z.log2 (Z.abs m0) < p)%Z by (apply Z.log2_lt_pow2; lia).
      lia. }
  replace (m0 * 2 ^ j)%Z with (m0 * 2 ^ (j - k) * 2 ^ k)%Z.
  2:{ rewrite <- Z.mul_assoc, <- Z.pow_add_r by lia. do 2 f_equal. lia. }
  rewrite round_half_even_exact by (apply Z.pow_pos_nonneg; lia). reflexivity.
Qed.

Lemma val_rnd (p : Z) (d : dyadic) :
  val (rnd p d) =
  IZR (round_half_even (fst d) (2 ^ rnd_shift p (fst d)) * 2 ^ rnd_shift p (fst d))
  * bpow (snd d).
Proof.
  unfold rnd. fold (rnd_shift p (fst d)).
  set (k := rnd_shift p (fst d)).
  assert (Hk : (0 <= k)%Z) by (unfold k, rnd_shift; lia).
  unfold val. cbn [fst snd]. rewrite mult_IZR, bpow_add, (bpow_IZR k Hk). ring.
Qed.

Lemma rnd_abs_err (p : Z) (d : dyadic) :
  (1 <= p)%Z ->
  Rabs (val (rnd p d) - val d) <= bpow (- p) * Rabs (val d).
Proof.
  intros Hp. rewrite val_rnd. unfold val.
  set (m := fst d). set (e := snd d). set (k := rnd_shift p m).
  pose proof (rnd_int_err p m Hp) as H. fold k in H.
  rewrite <- Rmult_minus_distr_r, <- minus_IZR.
  rewrite !Rabs_mult, (Rabs_pos_eq (bpow e)) by (pose proof (bpow_pos e); lra).
  rewrite <- !abs_IZR.
  apply IZR_le in H. rewrite mult_IZR, <- (bpow_IZR p) in H by lia.
  pose proof (bpow_pos e) as He. pose proof (bpow_pos p) as Hpp.
  pose proof (bpow_inv_l p) as Hinv.
  set (x := IZR (Z.abs (round_half_even m (2 ^ k) * 2 ^ k - m))) in *.
  set (y := IZR (Z.abs m)) in *.
  assert (Hx : x <= bpow (- p) * y).
  { assert (bpow (- p) * (bpow p * x) <= bpow (- p) * y).
    { apply Rmult_le_compat_l; [pose proof (bpow_pos (- p)); lra | exact H]. }
    rewrite <- Rmult_assoc, Hinv in H0. lra. }
  rewrite <- Rmult_assoc. apply Rmult_le_compat_r; lra.
Qed.

Lemma rnd_rel (p : Z) (d : dyadic) :
  (1 <= p)%Z ->
  exists delta, val (rnd p d) = val d * (1 + delta) /\ Rabs delta <= bpow (- p).
Proof.
  intros Hp. pose proof (rnd_abs_err p d Hp) as H.
  destruct (Req_dec (val d) 0) as [Hz | Hnz].
  - exists 0. rewrite Hz, Rabs_R0, Rmult_0_r in H.
    split.
    + rewrite Hz in *. unfold Rabs in H.
      destruct (Rcase_abs (val (rnd p d) - 0)) in H; lra.
    + rewrite Rabs_R0. pose proof (bpow_pos (- p)). lra.
  - exists ((val (rnd p d) - val d) / val d). split; [field; exact Hnz |].
    unfold Rdiv. rewrite Rabs_mult, Rabs_inv.
    assert (Hpos : 0 < Rabs (val d)) by (apply Rabs_pos_lt; exact Hnz).
    apply Rmult_le_reg_r with (Rabs (val d)); [exact Hpos |].
    rewrite Rmult_assoc, Rinv_l by lra. lra.
Qed.

Lemma IZR_abs_lt_1 (z : Z) : Rabs (IZR z) < 1 -> z = 0%Z.
Proof.
  intros H. rewrite <- abs_IZR in H. apply lt_IZR in H. lia.
Qed.

Lemma rnd_representable (p : Z) (d : dyadic) (m0 e0 : Z) :
  (1 <= p)%Z ->
  val d = IZR m0 * bpow e0 ->
  (Z.abs m0 < 2 ^ p)%Z ->
  val (rnd p d) = val d.
Proof.
  intros Hp Hval Hm0. destruct d as [m e]. unfold val in Hval. cbn [fst snd] in Hval.
  rewrite val_rnd. cbn [fst snd]. unfold val. cbn [fst snd]. f_equal. f_equal.
  destruct (Z_le_gt_dec e0 e) as [Hle | Hgt].
  - assert (Hm : m0 = (m * 2 ^ (e - e0))%Z).
    { apply eq_IZR. rewrite mult_IZR, <- bpow_IZR by lia.
      replace (e - e0)%Z with (e + - e0)%Z by lia. rewrite bpow_add.
      rewrite <- Rmult_assoc, Hval, Rmult_assoc.
      rewrite <- bpow_add. replace (e0 + - e0)%Z with 0%Z by lia.
      unfold bpow. rewrite powerRZ_O. ring. }
    apply (rnd_int_exact p m m 0); try lia.
    assert (0 < 2 ^ (e - e0))%Z by (apply Z.pow_pos_nonneg; lia).
    rewrite Hm, Z.abs_mul in Hm0. nia.
  - assert (Hm : m = (m0 * 2 ^ (e0 - e))%Z).
    { apply eq_IZR. rewrite mult_IZR, <- bpow_IZR by lia.
      replace (e0 - e)%Z with (e0 + - e)%Z by lia. rewrite bpow_add.
      rewrite <- Rmult_assoc, <- Hval, Rmult_assoc.
      rewrite <- bpow_add. replace (e + - e)%Z with 0%Z by lia.
      unfold bpow. rewrite powerRZ_O. ring. }
    apply (rnd_int_exact p m m0 (e0 - e)); try lia.
Qed.

Lemma cvRound_near (d : dyadic) (n : Z) :
  Rabs (val d - IZR n) < 1 / 2 -> cvRound d = n.
Proof.
  destruct d as [m e]. unfold cvRound, val. cbn [fst snd]. intros H.
  destruct (Z.leb_spec 0 e) as [He | He].
  - rewrite (bpow_IZR e He), <- mult_IZR, <- minus_IZR in H.
    assert (Rabs (IZR (m * 2 ^ e - n)) < 1) by lra.
    apply IZR_abs_lt_1 in H0. lia.
  - assert (Hd : (0 < 2 ^ (- e))%Z) by (apply Z.pow_pos_nonneg; lia).
    apply round_half_even_nearest; [exact Hd |].
    apply lt_IZR. rewrite mult_IZR, abs_IZR, minus_IZR, mult_IZR.
    rewrite <- (bpow_IZR (- e)) by lia.
    pose proof (bpow_pos (- e)) as Hpos. pose proof (bpow_inv_l (- e)) as Hinv.
    rewrite Z.opp_involutive in Hinv.
    assert (E : IZR n * bpow (- e) - IZR m = - (IZR m * bpow e - IZR n) * bpow (- e)).
    { replace (- (IZR m * bpow e - IZR n) * bpow (- e))
        with (IZR n * bpow (- e) - IZR m * (bpow e * bpow (- e))) by ring.
      rewrite Hinv. ring. }
    rewrite E, Rabs_mult, Rabs_Ropp, (Rabs_pos_eq (bpow (- e))) by lra.
    assert (Rabs (IZR m * bpow e - IZR n) * bpow (- e) < 1 / 2 * bpow (- e)).
    { apply Rmult_lt_compat_r; assumption. }
    lra.
Qed.

Lemma dinv_rel (p r : Z) :
  (1 <= p)%Z -> (1 <= r)%Z ->
  exists eps, val (dinv p r) * IZR r = 1 + eps /\ Rabs eps <= bpow (- p).
Proof.
  intros Hp Hr. unfold dinv. set (k := (p + Z.log2 r)%Z).
  assert (Hk : (0 <= k)%Z) by (pose proof (Z.log2_nonneg r); unfold k; lia).
  set (m := round_half_even (2 ^ k) r).
  pose proof (round_half_even_bound (2 ^ k) r ltac:(lia)) as B. fold m in B.
  pose proof (Z.log2_spec r ltac:(lia)) as [_ Hhi].
  assert (Hz : (Z.abs (r * m - 2 ^ k) * 2 ^ p <= 2 ^ k)%Z).
  { assert (Hkpow : (2 ^ k = 2 ^ p * 2 ^ Z.log2 r)%Z).
    { unfold k. apply Z.pow_add_r; [lia | apply Z.log2_nonneg]. }
    rewrite Z.pow_succ_r in Hhi by apply Z.log2_nonneg.
    assert (HP : (0 < 2 ^ p)%Z) by (apply Z.pow_pos_nonneg; lia).
    assert (HA : (Z.abs (r * m - 2 ^ k) < 2 ^ Z.log2 r)%Z) by lia.
    set (A := Z.abs (r * m - 2 ^ k)) in *.
    rewrite Hkpow. nia. }
  exists (IZR (r * m - 2 ^ k) * bpow (- k)). split.
  - unfold val. cbn [fst snd]. rewrite minus_IZR, mult_IZR, <- (bpow_IZR k Hk).
    rewrite Rmult_minus_distr_r. pose proof (bpow_inv_l k) as Hinv.
    rewrite (Rmult_comm (bpow k)), Hinv. ring.
  - rewrite Rabs_mult, (Rabs_pos_eq (bpow (- k))) by (pose proof (bpow_pos (- k)); lra).
    rewrite <- abs_IZR. apply IZR_le in Hz.
    rewrite mult_IZR, <- !bpow_IZR in Hz by lia.
    pose proof (bpow_pos (- k)) as H1. pose proof (bpow_pos p) as H2.
    pose proof (bpow_inv_l k) as Hik. pose proof (bpow_inv_l p) as Hip.
    set (x := IZR (Z.abs (r * m - 2 ^ k))) in *.
    assert (Hx : x * bpow (- k) * bpow p <= 1).
    { replace (x * bpow (- k) * bpow p) with (bpow (- k) * (x * bpow p)) by ring.
      rewrite <- Hik. apply Rmult_le_compat_l; lra. }
    assert (bpow (- p) * (x * bpow (- k) * bpow p) <= bpow (- p) * 1).
    { apply Rmult_le_compat_l; [pose proof (bpow_pos (- p)); lra | exact Hx]. }
    replace (bpow (- p) * (x * bpow (- k) * bpow p))
      with (x * bpow (- k) * (bpow (- p) * bpow p)) in H by ring.
    rewrite Hip in H. lra.
Qed.

(** *** The two ends of the normalized range *)

Lemma bpow_m24 : bpow (Z.opp 24) = / 16777216.
Proof. unfold bpow. simpl. f_equal. lra. Qed.

Lemma bpow_m53 : bpow (Z.opp 53) = / 9007199254740992.
Proof. unfold bpow. simpl. f_equal. lra. Qed.

Lemma Rabs_le_iff (x c : R) : Rabs x <= c <-> - c <= x <= c.
Proof.
  split.
  - intros H. unfold Rabs in H. destruct (Rcase_abs x); lra.
  - intros H. unfold Rabs. destruct (Rcase_abs x); lra.
Qed.

Lemma Rabs_lt_iff (x c : R) : Rabs x < c <-> - c < x < c.
Proof.
  split.
  - intros H. unfold Rabs in H. destruct (Rcase_abs x); lra.
  - intros H. unfold Rabs. destruct (Rcase_abs x); lra.
Qed.

Lemma abs_mul_le (x y X Y : R) :
  Rabs x <= X -> Rabs y <= Y -> Rabs (x * y) <= X * Y.
Proof.
  intros Hx Hy. rewrite Rabs_mult.
  apply Rmult_le_compat; try apply Rabs_pos; assumption.
Qed.

(** Two relative errors compose. *)
Lemma two_errors (x y c1 c2 : R) :
  Rabs x <= c1 -> Rabs y <= c2 ->
  Rabs ((1 + x) * (1 + y) - 1) <= c1 + c2 + c1 * c2.
Proof.
  intros Hx Hy.
  replace ((1 + x) * (1 + y) - 1) with (x + y + x * y) by ring.
  pose proof (abs_mul_le x y c1 c2 Hx Hy) as Hxy.
  pose proof (Rabs_triang (x + y) (x * y)). pose proof (Rabs_triang x y). lra.
Qed.

Lemma real_endpoints (u E1 A B dy : R) :
  0 <= u <= 5569965 / 2 ->
  Rabs (E1 - 1) <= 1 / 1000000000000000 ->
  Rabs (A - 1) <= 11921 / 100000000000 ->
  Rabs (B - 1) <= 5961 / 100000000000 ->
  Rabs dy <= / 16777216 ->
  Rabs (E1 * (u * A - u * B) * (1 + dy)) < 1 / 2 /\
  Rabs (E1 * ((u + 255) * A - u * B) * (1 + dy) - 255) < 1 / 2.
Proof.
  intros Hu HE HA HB Hdy.
  set (P := u * ((A - 1) - (B - 1))).
  set (F := (1 + (E1 - 1)) * (1 + dy) - 1).
  assert (HAB : Rabs ((A - 1) - (B - 1)) <= 17882 / 100000000000).
  { apply Rabs_le_iff. apply Rabs_le_iff in HA, HB. lra. }
  assert (HP : Rabs P <= 5569965 / 2 * (17882 / 100000000000)).
  { apply abs_mul_le; [apply Rabs_le_iff; lra | exact HAB]. }
  assert (HF : Rabs F <= 1 / 1000000000000000 + / 16777216
                         + 1 / 1000000000000000 * / 16777216).
  { apply two_errors; assumption. }
  assert (HF' : Rabs F <= 6 / 100000000).
  { eapply Rle_trans; [exact HF | lra]. }
  assert (HFP : Rabs (F * P) <= 6 / 100000000 * (5569965 / 2 * (17882 / 100000000000))).
  { apply abs_mul_le; assumption. }
  set (Q := 255 + P + 255 * (A - 1)).
  assert (HQ : Rabs (Q - 255) <= 5569965 / 2 * (17882 / 100000000000)
                                 + 255 * (11921 / 100000000000)).
  { unfold Q. apply Rabs_le_iff. apply Rabs_le_iff in HP, HA. lra. }
  assert (HQ' : Rabs Q <= 256).
  { apply Rabs_le_iff. apply Rabs_le_iff in HQ. lra. }
  assert (HFQ : Rabs (F * Q) <= 6 / 100000000 * 256).
  { apply abs_mul_le; assumption. }
  split.
  - replace (E1 * (u * A - u * B) * (1 + dy)) with (P + F * P)
      by (unfold P, F; ring).
    apply Rabs_lt_iff. apply Rabs_le_iff in HP, HFP. lra.
  - replace (E1 * ((u + 255) * A - u * B) * (1 + dy) - 255)
      with ((Q - 255) + F * Q) by (unfold Q, P, F; ring).
    apply Rabs_lt_iff. apply Rabs_le_iff in HQ, HFQ. lra.
Qed.

Lemma scaled_rel (fused : bool) (a b : dyadic) (v : Z) :
  exists dm dy,
    Rabs dm <= / 16777216 /\ Rabs dy <= / 16777216 /\
    val (scaled fused a b v) = (IZR v * val a * (1 + dm) + val b) * (1 + dy).
Proof.
  assert (Hd : 0 <= / 16777216) by lra.
  unfold scaled. destruct fused.
  - destruct (rnd_rel 24 (dadd (dmul (of_Z v) a) b) ltac:(lia)) as (dy & Hy & Hdy).
    exists 0, dy. rewrite Rabs_R0. rewrite bpow_m24 in Hdy.
    split; [exact Hd |]. split; [exact Hdy |].
    rewrite Hy, val_dadd, val_dmul, val_of_Z. ring.
  - destruct (rnd_rel 24 (dmul (of_Z v) a) ltac:(lia)) as (dm & Hm & Hdm).
    destruct (rnd_rel 24 (dadd (rnd 24 (dmul (of_Z v) a)) b) ltac:(lia))
      as (dy & Hy & Hdy).
    exists dm, dy. rewrite bpow_m24 in Hdm, Hdy.
    split; [exact Hdm |]. split; [exact Hdy |].
    rewrite Hy, val_dadd, Hm, val_dmul, val_of_Z. ring.
Qed.

Lemma scaled_form (fused : bool) (smin smax v : Z) :
  (1 <= smax - smin)%Z ->
  let r := IZR (smax - smin) in
  exists E1 A B dy,
    Rabs (E1 - 1) <= 1 / 1000000000000000 /\
    Rabs (A - 1) <= 11921 / 100000000000 /\
    Rabs (B - 1) <= 5961 / 100000000000 /\
    Rabs dy <= / 16777216 /\
    val (scaled fused (rnd 24 (scale_of smin smax)) (rnd 24 (shift_of smin smax)) v) =
    E1 * (IZR v * (255 / r) * A - IZR smin * (255 / r) * B) * (1 + dy).
Proof.
  intros Hr r.
  assert (Hr0 : r <> 0).
  { unfold r. apply not_0_IZR. lia. }
  destruct (dinv_rel 53 (smax - smin) ltac:(lia) Hr) as (e0 & Hinv & He0).
  destruct (rnd_rel 53 (dmul (of_Z 255) (dinv 53 (smax - smin))) ltac:(lia))
    as (e1 & Hsd & He1).
  fold (scale_of smin smax) in Hsd.
  destruct (rnd_rel 53 (dmul (of_Z smin) (scale_of smin smax)) ltac:(lia))
    as (e2 & Hpd & He2).
  destruct (rnd_rel 53 (dadd (of_Z 0)
                          (dneg (rnd 53 (dmul (of_Z smin) (scale_of smin smax)))))
              ltac:(lia)) as (e3 & Hsh & He3).
  fold (shift_of smin smax) in Hsh.
  destruct (rnd_rel 24 (scale_of smin smax) ltac:(lia)) as (da & Ha & Hda).
  destruct (rnd_rel 24 (shift_of smin smax) ltac:(lia)) as (db & Hb & Hdb).
  destruct (scaled_rel fused (rnd 24 (scale_of smin smax))
              (rnd 24 (shift_of smin smax)) v) as (dm & dy & Hdm & Hdy & Hy).
  rewrite bpow_m53 in He0, He1, He2, He3. rewrite bpow_m24 in Hda, Hdb.
  assert (Hsd' : val (scale_of smin smax) = 255 / r * ((1 + e0) * (1 + e1))).
  { rewrite Hsd, val_dmul, val_of_Z.
    replace (val (dinv 53 (smax - smin))) with ((1 + e0) / r).
    2:{ rewrite <- Hinv. fold r. field. exact Hr0. }
    field. exact Hr0. }
  assert (Hsh' : val (shift_of smin smax) =
                 - (IZR smin * val (scale_of smin smax) * ((1 + e2) * (1 + e3)))).
  { rewrite Hsh, val_dadd, val_of_Z, val_dneg, Hpd, val_dmul, val_of_Z. ring. }
  exists ((1 + e0) * (1 + e1)), ((1 + da) * (1 + dm)),
    ((1 + e2) * (1 + e3) * (1 + db)), dy.
  split.
  { eapply Rle_trans; [apply (two_errors e0 e1 _ _ He0 He1) | lra]. }
  split.
  { eapply Rle_trans; [apply (two_errors da dm _ _ Hda Hdm) | lra]. }
  split.
  { pose proof (two_errors e2 e3 _ _ He2 He3) as H23.
    set (c := / 9007199254740992 + / 9007199254740992
              + / 9007199254740992 * / 9007199254740992) in H23.
    replace ((1 + e2) * (1 + e3) * (1 + db) - 1)
      with ((1 + ((1 + e2) * (1 + e3) - 1)) * (1 + db) - 1) by ring.
    eapply Rle_trans; [apply (two_errors _ db _ _ H23 Hdb) | unfold c; lra]. }
  split; [exact Hdy |].
  rewrite Hy, Ha, Hb, Hsh', Hsd'. field. exact Hr0.
Qed.

Lemma saturate_id (n : Z) : (0 <= n <= 255)%Z -> saturate_uint8 n = n.
Proof. unfold saturate_uint8. lia. Qed.

Lemma endpoints_wide (fused : bool) (smin smax : Z) :
  (0 <= smin)%Z -> (6 <= smax - smin)%Z -> (smax <= 65535)%Z ->
  normalize_value fused smin smax smin = 0%Z /\
  normalize_value fused smin smax smax = 255%Z.
Proof.
  intros Hmin Hr Hmax. unfold normalize_value.
  destruct (Z.ltb_spec 0 (smax - smin)); [| lia]. cbv zeta.
  set (r := IZR (smax - smin)).
  assert (Hr6 : 6 <= r) by (unfold r; apply IZR_le; lia).
  assert (Hs0 : 0 <= IZR smin) by (apply IZR_le; lia).
  assert (Hsr : IZR smin + r <= 65535).
  { unfold r. rewrite <- plus_IZR. apply IZR_le. lia. }
  set (u := IZR smin * (255 / r)).
  assert (Hu : 0 <= u <= 5569965 / 2).
  { unfold u. split.
    - apply Rmult_le_pos; [exact Hs0 |]. unfold Rdiv.
      apply Rmult_le_pos; [lra |]. apply Rlt_le, Rinv_0_lt_compat. lra.
    - apply Rmult_le_reg_r with r; [lra |].
      replace (IZR smin * (255 / r) * r) with (255 * IZR smin) by (field; lra).
      lra. }
  split.
  - destruct (scaled_form fused smin smax smin ltac:(lia))
      as (E1 & A & B & dy & HE & HA & HB & Hdy & Hy).
    fold r in Hy. fold u in Hy.
    destruct (real_endpoints u E1 A B dy Hu HE HA HB Hdy) as [H0 _].
    rewrite (cvRound_near _ 0); [reflexivity |].
    rewrite Hy, Rminus_0_r. exact H0.
  - destruct (scaled_form fused smin smax smax ltac:(lia))
      as (E1 & A & B & dy & HE & HA & HB & Hdy & Hy).
    fold r in Hy. fold u in Hy.
    destruct (real_endpoints u E1 A B dy Hu HE HA HB Hdy) as [_ H255].
    rewrite (cvRound_near _ 255); [reflexivity |].
    rewrite Hy.
    replace (IZR smax * (255 / r)) with (u + 255); [exact H255 |].
    unfold u. replace (IZR smax) with (IZR smin + r).
    + field. lra.
    + unfold r. rewrite <- plus_IZR. f_equal. lia.
Qed.

Lemma scale_of_range (smin smax : Z) :
  scale_of smin smax = scale_of 0 (smax - smin).
Proof. unfold scale_of. rewrite Z.sub_0_r. reflexivity. Qed.

Lemma exact_path (fused : bool) (smin smax c j v : Z) :
  val (scale_of smin smax) = IZR c * bpow (- j) ->
  (0 < c)%Z -> (c * 65535 < 2 ^ 24)%Z ->
  (0 <= smin <= 65535)%Z -> (0 <= v <= 65535)%Z ->
  val (scaled fused (rnd 24 (scale_of smin smax)) (rnd 24 (shift_of smin smax)) v) =
  IZR ((v - smin) * c) * bpow (- j).
Proof.
  intros Hsd Hc Hc24 Hmin Hv.
  assert (H53 : (2 ^ 24 < 2 ^ 53)%Z) by (apply Z.pow_lt_mono_r; lia).
  assert (Ha : val (rnd 24 (scale_of smin smax)) = IZR c * bpow (- j)).
  { rewrite (rnd_representable 24 _ c (- j)); [exact Hsd | lia | exact Hsd | lia]. }
  assert (Hpd : val (rnd 53 (dmul (of_Z smin) (scale_of smin smax))) =
                IZR (smin * c) * bpow (- j)).
  { assert (E : val (dmul (of_Z smin) (scale_of smin smax)) =
                IZR (smin * c) * bpow (- j)).
    { rewrite val_dmul, val_of_Z, Hsd, mult_IZR. ring. }
    rewrite (rnd_representable 53 _ (smin * c) (- j)); [exact E | lia | exact E | nia]. }
  assert (Hsh : val (shift_of smin smax) = IZR (- (smin * c)) * bpow (- j)).
  { unfold shift_of.
    assert (E : val (dadd (of_Z 0)
                       (dneg (rnd 53 (dmul (of_Z smin) (scale_of smin smax))))) =
                IZR (- (smin * c)) * bpow (- j)).
    { rewrite val_dadd, val_of_Z, val_dneg, Hpd, opp_IZR. ring. }
    rewrite (rnd_representable 53 _ (- (smin * c)) (- j)); [exact E | lia | exact E | nia]. }
  assert (Hb : val (rnd 24 (shift_of smin smax)) = IZR (- (smin * c)) * bpow (- j)).
  { rewrite (rnd_representable 24 _ (- (smin * c)) (- j)); [exact Hsh | lia | exact Hsh | nia]. }
  assert (Hprod : val (dmul (of_Z v) (rnd 24 (scale_of smin smax))) =
                  IZR (v * c) * bpow (- j)).
  { rewrite val_dmul, val_of_Z, Ha, mult_IZR. ring. }
  assert (Hsum : forall x,
             val x = IZR (v * c) * bpow (- j) ->
             val (rnd 24 (dadd x (rnd 24 (shift_of smin smax)))) =
             IZR ((v - smin) * c) * bpow (- j)).
  { intros x Hx.
    assert (E : val (dadd x (rnd 24 (shift_of smin smax))) =
                IZR ((v - smin) * c) * bpow (- j)).
    { rewrite val_dadd, Hx, Hb, <- Rmult_plus_distr_r, <- plus_IZR.
      do 2 f_equal. ring. }
    rewrite (rnd_representable 24 _ ((v - smin) * c) (- j)); [exact E | lia | exact E | nia]. }
  unfold scaled. destruct fused.
  - apply Hsum. exact Hprod.
  - apply Hsum.
    rewrite (rnd_representable 24 _ (v * c) (- j)); [exact Hprod | lia | exact Hprod | nia].
Qed.

Lemma endpoints_exact (fused : bool) (smin smax c j : Z) :
  val (scale_of smin smax) = IZR c * bpow (- j) ->
  (0 <= j)%Z -> (0 < c)%Z -> (c * 65535 < 2 ^ 24)%Z ->
  ((smax - smin) * c = 255 * 2 ^ j)%Z ->
  (0 <= smin)%Z -> (smin < smax)%Z -> (smax <= 65535)%Z ->
  normalize_value fused smin smax smin = 0%Z /\
  normalize_value fused smin smax smax = 255%Z.
Proof.
  intros Hsd Hj Hc Hc24 Hrc Hmin Hlt Hmax. unfold normalize_value.
  destruct (Z.ltb_spec 0 (smax - smin)); [| lia]. cbv zeta.
  split.
  - rewrite (cvRound_near _ 0); [reflexivity |].
    rewrite (exact_path fused smin smax c j smin Hsd Hc Hc24) by lia.
    rewrite Z.sub_diag, Z.mul_0_l, Rmult_0_l, Rminus_0_r, Rabs_R0. lra.
  - rewrite (cvRound_near _ 255); [reflexivity |].
    rewrite (exact_path fused smin smax c j smax Hsd Hc Hc24) by lia.
    rewrite Hrc, mult_IZR, <- (bpow_IZR j Hj), Rmult_assoc.
    rewrite (Rmult_comm (bpow j)), bpow_inv_l, Rmult_1_r.
    replace (255 - 255) with 0 by ring. rewrite Rabs_R0. lra.
Qed.

Lemma scale_small (r : Z) :
  (1 <= r <= 5)%Z ->
  exists c j,
    val (scale_of 0 r) = IZR c * bpow (- j) /\
    (0 <= j)%Z /\ (0 < c)%Z /\ (c * 65535 < 2 ^ 24)%Z /\ (r * c = 255 * 2 ^ j)%Z.
Proof.
  intros Hr.
  assert (Hcases : r = 1%Z \/ r = 2%Z \/ r = 3%Z \/ r = 4%Z \/ r = 5%Z) by lia.
  assert (Hnorm : forall m e c j k,
             (0 <= k)%Z -> m = (c * 2 ^ k)%Z -> (e + k = - j)%Z ->
             val (m, e) = IZR c * bpow (- j)).
  { intros m e c j k Hk -> He. rewrite val_shift by exact Hk. rewrite He. reflexivity. }
  destruct Hcases as [-> | [-> | [-> | [-> | ->]]]].
  - exists 255%Z, 0%Z. split; [| repeat split; first [reflexivity | vm_compute; discriminate]].
    apply (Hnorm _ _ 255%Z 0%Z 45%Z); [lia | vm_compute; reflexivity | reflexivity].
  - exists 255%Z, 1%Z. split; [| repeat split; first [reflexivity | vm_compute; discriminate]].
    apply (Hnorm _ _ 255%Z 1%Z 45%Z); [lia | vm_compute; reflexivity | reflexivity].
  - exists 85%Z, 0%Z. split; [| repeat split; first [reflexivity | vm_compute; discriminate]].
    apply (Hnorm _ _ 85%Z 0%Z 46%Z); [lia | vm_compute; reflexivity | reflexivity].
  - exists 255%Z, 2%Z. split; [| repeat split; first [reflexivity | vm_compute; discriminate]].
    apply (Hnorm _ _ 255%Z 2%Z 45%Z); [lia | vm_compute; reflexivity | reflexivity].
  - exists 51%Z, 0%Z. split; [| repeat split; first [reflexivity | vm_compute; discriminate]].
    apply (Hnorm _ _ 51%Z 0%Z 47%Z); [lia | vm_compute; reflexivity | reflexivity].
Qed.

Lemma normalize_endpoints (fused : bool) (smin smax : Z) :
  (0 <= smin)%Z -> (smin < smax)%Z -> (smax <= 65535)%Z ->
  normalize_value fused smin smax smin = 0%Z /\
  normalize_value fused smin smax smax = 255%Z.
Proof.
  intros Hmin Hlt Hmax.
  destruct (Z_le_gt_dec 6 (smax - smin)) as [Hwide | Hnarrow].
  - apply endpoints_wide; assumption.
  - destruct (scale_small (smax - smin) ltac:(lia)) as (c & j & Hsd & Hj & Hc & Hc24 & Hrc).
    rewrite <- scale_of_range in Hsd.
    apply (endpoints_exact fused smin smax c j); assumption.
Qed.

Close Scope R_scope.
Close Scope Z_scope.

Lemma normalize_value_range (fused : bool) (smin smax v : Z) :
  (0 <= normalize_value fused smin smax v <= 255)%Z.
Proof.
  unfold normalize_value, saturate_uint8.
  destruct (0 <? smax - smin)%Z; lia.
Qed.

(** *** Maps that know the position *)

Lemma mapi_from_length {A B} (f : nat -> A -> B) (l : list A) :
  forall start, length (mapi_from f start l) = length l.
Proof.
  induction l as [| x l IH]; intros start; simpl; [reflexivity |].
  rewrite IH. reflexivity.
Qed.

Lemma mapi_from_nth_error {A B} (f : nat -> A -> B) (l : list A) :
  forall start i,
    nth_error (mapi_from f start l) i =
    option_map (f (start + i)%nat) (nth_error l i).
Proof.
  induction l as [| x l IH]; intros start i.
  - destruct i; reflexivity.
  - destruct i as [| i]; simpl.
    + rewrite Nat.add_0_r. reflexivity.
    + rewrite IH. replace (S start + i)%nat with (start + S i)%nat by lia.
      reflexivity.
Qed.

Lemma mapi_length {A B} (f : nat -> A -> B) (l : list A) :
  length (mapi f l) = length l.
Proof. apply mapi_from_length. Qed.

Lemma mapi_nth_error {A B} (f : nat -> A -> B) (l : list A) (i : nat) :
  nth_error (mapi f l) i = option_map (f i) (nth_error l i).
Proof. apply (mapi_from_nth_error f l 0 i). Qed.

Lemma mapi_from_ext {A B} (f g : nat -> A -> B) (l : list A) :
  forall start,
    (forall i x, In x l -> f i x = g i x) ->
    mapi_from f start l = mapi_from g start l.
Proof.
  induction l as [| x l IH]; intros start H; simpl; [reflexivity |].
  rewrite (H start x (or_introl eq_refl)), IH; [reflexivity |].
  intros i y Hy. apply H. right. exact Hy.
Qed.

Lemma mapi_from_const {A B} (g : A -> B) (l : list A) :
  forall start, mapi_from (fun _ x => g x) start l = map g l.
Proof.
  induction l as [| x l IH]; intros start; simpl; [reflexivity |].
  rewrite IH. reflexivity.
Qed.

Lemma mapi_In {A B} (f : nat -> A -> B) (l : list A) (y : B) :
  In y (mapi f l) -> exists i x, In x l /\ y = f i x.
Proof.
  intros H. apply In_nth_error in H. destruct H as [i Hi].
  rewrite mapi_nth_error in Hi.
  destruct (nth_error l i) as [x |] eqn:E; [| discriminate].
  injection Hi as <-. exists i, x. split; [| reflexivity].
  eapply nth_error_In. exact E.
Qed.


(** ** The encoder *)

Lemma stdin_bytes_app (t1 t2 : list event) :
  stdin_bytes (t1 ++ t2) = stdin_bytes t1 ++ stdin_bytes t2.
Proof. apply flat_map_app. Qed.

Lemma popen_cmds_app (t1 t2 : list event) :
  popen_cmds (t1 ++ t2) = popen_cmds t1 ++ popen_cmds t2.
Proof. apply flat_map_app. Qed.


Lemma writes_stdin_bytes (chunks : list (list byte)) :
  stdin_bytes (map EvStdinWrite chunks) = concat chunks.
Proof.
  induction chunks as [| c cs IH]; [reflexivity |].
  change (stdin_bytes (map EvStdinWrite (c :: cs)))
    with (c ++ stdin_bytes (map EvStdinWrite cs)).
  rewrite IH. reflexivity.
Qed.

Lemma writes_popen_cmds (chunks : list (list byte)) :
  popen_cmds (map EvStdinWrite chunks) = [].
Proof. induction chunks; simpl; auto. Qed.


Lemma io_bind_emit {B} (e : event) (k : unit -> io B) :
  io_bind (emit e) k = (e :: fst (k tt), snd (k tt)).
Proof. reflexivity. Qed.

Lemma io_bind_raise {A B} (t : list event) (e : pyerror) (k : A -> io B) :
  io_bind (t, inl e) k = (t, inl e).
Proof. reflexivity. Qed.

Lemma io_bind_ok {A B} (t : list event) (a : A) (k : A -> io B) :
  io_bind (t, inr a) k = (t ++ fst (k a), snd (k a)).
Proof. reflexivity. Qed.

(** The writes: all of them, or those before the one that breaks. *)
Lemma write_frames_spec (b : option nat) (chunks : list (list byte)) :
  forall i,
    write_frames b i chunks =
    match b with
    | Some k =>
        if (i <=? k)%nat && (k <? i + length chunks)%nat
        then (map EvStdinWrite (firstn (k - i) chunks), raise BrokenPipeError)
        else (map EvStdinWrite chunks, ok tt)
    | None => (map EvStdinWrite chunks, ok tt)
    end.
Proof.
  induction chunks as [| c rest IH]; intros i.
  - destruct b as [k |]; [| reflexivity]. cbn [write_frames length].
    destruct (Nat.leb_spec i k), (Nat.ltb_spec k (i + 0)); try reflexivity; lia.
  - cbn [write_frames]. destruct b as [k |].
    + cbn [breaks_here]. destruct (Nat.eqb_spec k i) as [-> | Hne].
      * rewrite Nat.leb_refl, Nat.sub_diag. cbn [length].
        destruct (Nat.ltb_spec i (i + S (length rest))); [reflexivity | lia].
      * rewrite io_bind_emit, IH. cbn [length].
        destruct (Nat.leb_spec (S i) k), (Nat.ltb_spec k (S i + length rest)),
          (Nat.leb_spec i k), (Nat.ltb_spec k (i + S (length rest)));
          cbn [andb fst snd]; try lia; try reflexivity.
        replace (k - i)%nat with (S (k - S i)) by lia. reflexivity.
    + cbn [breaks_here]. rewrite io_bind_emit, IH. reflexivity.
Qed.

(** The run of the encoder on a non-empty sequence, case by case. *)
Lemma create_video_cases ffmpeg (frames : list (ndarray byte)) (output_path : string)
    (fps width height : N) (enable_compression : bool) :
  frames <> [] ->
  let cmd := build_cmd output_path fps width height enable_compression in
  let p := ffmpeg cmd (concat (map tobytes frames)) in
  let chunks := map tobytes frames in
  let completed :=
    (EvPopen cmd :: map EvStdinWrite chunks ++ fst (encoder_tail output_path p),
     snd (encoder_tail output_path p)) in
  create_video ffmpeg frames output_path fps width height enable_compression =
  if starts p then
    match breaks_at p with
    | Some k =>
        if (k <=? length frames)%nat
        then (EvPopen cmd :: map EvStdinWrite (firstn k chunks),
              raise BrokenPipeError)
        else completed
    | None => completed
    end
  else ([EvPopen cmd], raise FileNotFoundError).
Proof.
  intros Hne cmd p chunks completed. destruct frames as [| f fs]; [contradiction |].
  assert (Hlen : length chunks = length (f :: fs)) by apply length_map.
  unfold create_video. fold cmd. fold p. fold chunks.
  rewrite write_frames_spec. rewrite Hlen. unfold breaks_here.
  destruct (starts p); [| reflexivity].
  unfold completed, encoder_tail, report. cbn [fst snd].
  destruct (breaks_at p) as [k |].
  - rewrite Nat.sub_0_r. cbn [Nat.leb Nat.add andb].
    destruct (Nat.ltb_spec k (length (f :: fs))) as [Hlt | Hge].
    + destruct (Nat.leb_spec k (length (f :: fs))); [reflexivity | lia].
    + destruct (Nat.eqb_spec k (length (f :: fs))) as [Heq | Hne'].
      * destruct (Nat.leb_spec k (length (f :: fs))); [| lia].
        rewrite Heq, <- Hlen, firstn_all.
        unfold io_bind, emit, lift, io_ret, raise, ok. cbn [fst snd app].
        rewrite app_nil_r. reflexivity.
      * destruct (Nat.leb_spec k (length (f :: fs))); [lia |].
        destruct (stderr_text p) as [text |]; [| reflexivity].
        destruct (negb (returncode p =? 0)%Z); reflexivity.
  - destruct (stderr_text p) as [text |]; [| reflexivity].
    destruct (negb (returncode p =? 0)%Z); reflexivity.
Qed.

(** The run of the encoder when the process reads its input and its
    diagnostic text decodes. *)
Lemma create_video_run ffmpeg (frames : list (ndarray byte)) (output_path : string)
    (fps width height : N) (enable_compression : bool) (text : string) :
  frames <> [] ->
  let cmd := build_cmd output_path fps width height enable_compression in
  let p := ffmpeg cmd (concat (map tobytes frames)) in
  reads_all p ->
  stderr_text p = Some text ->
  create_video ffmpeg frames output_path fps width height enable_compression =
  (EvPopen cmd :: map EvStdinWrite (map tobytes frames) ++
     [EvStdinClose; EvStderrRead; EvWait;
      EvPrint (report output_path (text, returncode p))],
   ok tt).
Proof.
  intros Hne cmd p [Hs Hb] Ht.
  rewrite create_video_cases by exact Hne. cbv zeta. fold cmd. fold p.
  rewrite Hs, Hb. unfold encoder_tail. rewrite Ht. reflexivity.
Qed.

Lemma encoder_tail_quiet (output_path : string) (p : process) :
  exists rest,
    fst (encoder_tail output_path p) = EvStdinClose :: rest /\
    stdin_bytes rest = [] /\ popen_cmds rest = [].
Proof.
  unfold encoder_tail. destruct (stderr_text p); eexists; repeat split.
Qed.

(** Whatever the process does, [Popen] is called once, with the command
    line of lines 80-96. *)
Lemma create_video_popen ffmpeg (frames : list (ndarray byte))
    (output_path : string) (fps width height : N) (ec : bool) :
  popen_cmds (fst (create_video ffmpeg frames output_path fps width height ec)) =
  if nonempty frames then [build_cmd output_path fps width height ec] else [].
Proof.
  destruct frames as [| f fs] eqn:E; [reflexivity |]. rewrite <- E.
  rewrite create_video_cases by (rewrite E; discriminate). cbv zeta.
  replace (nonempty frames) with true by (rewrite E; reflexivity).
  set (p := ffmpeg _ _).
  destruct (encoder_tail_quiet output_path p) as (rest & Hrest & _ & Hp).
  assert (Hdone : forall cmd,
             popen_cmds (EvPopen cmd :: map EvStdinWrite (map tobytes frames) ++
                           fst (encoder_tail output_path p)) = [cmd]).
  { intros cmd. change (EvPopen cmd :: ?l) with ([EvPopen cmd] ++ l).
    rewrite !popen_cmds_app, writes_popen_cmds, Hrest.
    change (popen_cmds (EvStdinClose :: rest)) with (popen_cmds rest).
    rewrite Hp. reflexivity. }
  destruct (starts p); [| reflexivity].
  destruct (breaks_at p) as [k |]; [| cbn [fst]; apply Hdone].
  destruct (k <=? length frames)%nat; cbn [fst]; [| apply Hdone].
  change (EvPopen ?c :: ?l) with ([EvPopen c] ++ l).
  rewrite popen_cmds_app, writes_popen_cmds. reflexivity.
Qed.

(** The bytes written are those of the first frames, in order: all of
    them when the process reads its input. *)
Lemma create_video_stdin_prefix ffmpeg (frames : list (ndarray byte))
    (output_path : string) (fps width height : N) (ec : bool) :
  exists k,
    stdin_bytes (fst (create_video ffmpeg frames output_path fps width height ec)) =
    concat (firstn k (map tobytes frames)).
Proof.
  destruct frames as [| f fs] eqn:E; [exists 0%nat; reflexivity |]. rewrite <- E.
  rewrite create_video_cases by (rewrite E; discriminate). cbv zeta.
  set (p := ffmpeg _ _).
  destruct (encoder_tail_quiet output_path p) as (rest & Hrest & Hs & _).
  assert (Hdone : forall cmd,
             stdin_bytes (EvPopen cmd :: map EvStdinWrite (map tobytes frames) ++
                            fst (encoder_tail output_path p)) =
             concat (firstn (length frames) (map tobytes frames))).
  { intros cmd. change (EvPopen cmd :: ?l) with ([EvPopen cmd] ++ l).
    rewrite !stdin_bytes_app, writes_stdin_bytes, Hrest.
    change (stdin_bytes (EvStdinClose :: rest)) with (stdin_bytes rest).
    rewrite Hs, app_nil_r. rewrite <- (length_map tobytes frames), firstn_all.
    reflexivity. }
  destruct (starts p); [| exists 0%nat; reflexivity].
  destruct (breaks_at p) as [k |]; [| exists (length frames); cbn [fst]; apply Hdone].
  destruct (k <=? length frames)%nat; cbn [fst];
    [| exists (length frames); apply Hdone].
  exists k. change (EvPopen ?c :: ?l) with ([EvPopen c] ++ l).
  rewrite stdin_bytes_app, writes_stdin_bytes. reflexivity.
Qed.

Lemma create_video_to_close ffmpeg (frames : list (ndarray byte))
    (output_path : string) (fps width height : N) (ec : bool) :
  frames <> [] ->
  reads_all (ffmpeg (build_cmd output_path fps width height ec)
               (concat (map tobytes frames))) ->
  exists rest,
    fst (create_video ffmpeg frames output_path fps width height ec) =
    EvPopen (build_cmd output_path fps width height ec) ::
      map EvStdinWrite (map tobytes frames) ++ EvStdinClose :: rest /\
    stdin_bytes rest = [] /\ popen_cmds rest = [].
Proof.
  intros Hne [Hs Hb]. rewrite create_video_cases by exact Hne. cbv zeta.
  rewrite Hs, Hb. cbn [fst].
  destruct (encoder_tail_quiet output_path
              (ffmpeg (build_cmd output_path fps width height ec)
                 (concat (map tobytes frames)))) as (rest & -> & H1 & H2).
  exists rest. auto.
Qed.

Lemma create_video_stdin ffmpeg (frames : list (ndarray byte))
    (output_path : string) (fps width height : N) (ec : bool) :
  (frames <> [] ->
   reads_all (ffmpeg (build_cmd output_path fps width height ec)
                (concat (map tobytes frames)))) ->
  stdin_bytes (fst (create_video ffmpeg frames output_path fps width height ec)) =
  concat (map tobytes frames).
Proof.
  intros Hp. destruct frames as [| f fs] eqn:E; [reflexivity |]. rewrite <- E in *.
  assert (Hne : frames <> []) by (rewrite E; discriminate).
  destruct (create_video_to_close ffmpeg frames output_path fps width height ec
              Hne (Hp Hne)) as (rest & -> & Hs & _).
  change (EvPopen ?c :: ?l) with ([EvPopen c] ++ l).
  rewrite !stdin_bytes_app, writes_stdin_bytes.
  change (stdin_bytes (EvStdinClose :: rest)) with (stdin_bytes rest).
  rewrite Hs, app_nil_r. reflexivity.
Qed.

Lemma concat_length_uniform (n : N) (frames : list (ndarray byte)) :
  Forall (fun f => N.of_nat (length (tobytes f)) = n) frames ->
  N.of_nat (length (concat (map tobytes frames))) = N.of_nat (length frames) * n.
Proof.
  induction 1 as [| f fs Hf _ IH]; [reflexivity |].
  cbn [map concat]. rewrite length_app, Nat2N.inj_add, IH, Hf.
  change (length (f :: fs)) with (S (length fs)). lia.
Qed.

(** C3, as amended.  On a non-empty sequence, whatever the process does,
    the bytes the encoder writes are the bytes of the first frames of the
    sequence, in order.  When the process starts and reads its input, the
    encoder writes every frame's bytes in sequence order and then closes the
    input, with no write after the close; the bytes written are the
    concatenation of the frames' bytes, and they number
    [frame_count * width * height * 3] when every frame has [height] rows of
    [width] pixels. *)
Theorem create_video_streams_frames ffmpeg (frames : list (ndarray byte))
    (output_path : string) (fps width height : N) (enable_compression : bool) :
  frames <> [] ->
  let t := fst (create_video ffmpeg frames output_path fps width height
                  enable_compression) in
  (exists k, stdin_bytes t = concat (firstn k (map tobytes frames))) /\
  (reads_all (ffmpeg (build_cmd output_path fps width height enable_compression)
                (concat (map tobytes frames))) ->
   (exists cmd rest,
       t = EvPopen cmd :: map EvStdinWrite (map tobytes frames) ++ EvStdinClose :: rest /\
       stdin_bytes rest = [] /\ popen_cmds rest = []) /\
   stdin_bytes t = concat (map tobytes frames) /\
   (Forall (fun f => shape f = [height; width; 3] /\ wf_array f) frames ->
    N.of_nat (length (stdin_bytes t)) = N.of_nat (length frames) * width * height * 3)).
Proof.
  intros Hne t. split; [apply create_video_stdin_prefix |].
  intros Hp.
  assert (Hbytes : stdin_bytes t = concat (map tobytes frames)).
  { apply create_video_stdin. intros _. exact Hp. }
  split; [| split].
  - destruct (create_video_to_close ffmpeg frames output_path fps width height
                enable_compression Hne Hp) as (rest & Ht & H1 & H2).
    eexists _, rest. split; [exact Ht | auto].
  - exact Hbytes.
  - intros Hall. rewrite Hbytes.
    rewrite (concat_length_uniform (width * height * 3)); [lia |].
    eapply Forall_impl; [| exact Hall].
    intros f [Hshape Hwf]. unfold wf_array in Hwf. unfold tobytes.
    rewrite Hwf, Hshape. simpl. lia.
Qed.

(** C4.  On the empty sequence the encoder prints that there are no frames
    to write for the output path and returns; its run holds no other event,
    so no process is launched and nothing is written. *)
Theorem create_video_empty_is_noop ffmpeg (output_path : string)
    (fps width height : N) (enable_compression : bool) :
  create_video ffmpeg [] output_path fps width height enable_compression =
  ([EvPrint ("No frames to write for " ++ output_path)%string], ok tt) /\
  popen_cmds (fst (create_video ffmpeg [] output_path fps width height
                     enable_compression)) = [] /\
  stdin_bytes (fst (create_video ffmpeg [] output_path fps width height
                      enable_compression)) = [].
Proof. repeat split. Qed.

(** ** The command line *)

Lemma str_head (n : N) :
  exists c s, str n = String c s /\ c <> "-"%char.
Proof.
  unfold str, NilZero.string_of_uint.
  destruct (N.to_uint n); simpl; eexists _, _; (split; [reflexivity | discriminate]).
Qed.

Lemma str_not_option (n : N) (s : string) : str n <> String "-" s.
Proof.
  destruct (str_head n) as (c & s' & E & Hc). rewrite E.
  intros H. injection H as H _. contradiction.
Qed.

Lemma video_size_not_option (width height : N) (s : string) :
  (str width ++ "x" ++ str height)%string <> String "-" s.
Proof.
  destruct (str_head width) as (c & s' & E & Hc). rewrite E. simpl.
  intros H. injection H as H _. contradiction.
Qed.

(** No "-b:v" among the arguments of lines 80-91. *)
Lemma base_cmd_no_bitrate (fps width height : N) (ec : bool) :
  ~ In "-b:v" (base_cmd fps width height ec).
Proof.
  destruct ec; simpl; intros H;
    repeat (destruct H as [H | H]; [try discriminate H |]); try contradiction.
  all: first [ exact (video_size_not_option _ _ _ H) | exact (str_not_option _ _ H) ].
Qed.

(** C6.  A non-empty invocation calls [Popen] exactly once, with the
    command line of lines 80-96.  With compression off the quality
    parameter is 0 (lossless): "-crf" is followed by "0", and the arguments
    before the output path hold no "-b:v".  With compression on, "-b:v" is
    followed by the configured bitrate, right before the output path. *)
Theorem create_video_profile ffmpeg (frames : list (ndarray byte))
    (output_path : string) (fps width height : N) (enable_compression : bool) :
  frames <> [] ->
  let cmd := build_cmd output_path fps width height enable_compression in
  popen_cmds (fst (create_video ffmpeg frames output_path fps width height
                     enable_compression)) = [cmd] /\
  (enable_compression = false ->
     crf_of enable_compression = "0" /\
     adjacent "-crf" "0" cmd /\
     exists options, cmd = options ++ [output_path] /\ ~ In "-b:v" options) /\
  (enable_compression = true ->
     exists options, cmd = options ++ ["-b:v"; BITRATE; output_path] /\
                     ~ In "-b:v" options).
Proof.
  intros Hne cmd. split; [| split].
  - rewrite create_video_popen. destruct frames; [contradiction | reflexivity].
  - intros ->. split; [reflexivity |]. split.
    + unfold adjacent, cmd, build_cmd. simpl.
      eexists (_ :: _ :: _ :: _ :: _ :: _ :: _ :: _ :: _ :: _ :: _ :: _ :: _ :: _ :: []), _.
      reflexivity.
    + exists (base_cmd fps width height false).
      split; [reflexivity | apply base_cmd_no_bitrate].
  - intros ->. exists (base_cmd fps width height true).
    split; [| apply base_cmd_no_bitrate].
    unfold cmd, build_cmd. rewrite <- app_assoc. reflexivity.
Qed.



(** C10.  The command line of every non-empty invocation has "-y" as its
    second argument, right after the program name. *)
Theorem create_video_overwrites ffmpeg (frames : list (ndarray byte))
    (output_path : string) (fps width height : N) (enable_compression : bool) :
  frames <> [] ->
  exists cmd,
    popen_cmds (fst (create_video ffmpeg frames output_path fps width height
                       enable_compression)) = [cmd] /\
    nth_error cmd 0 = Some "ffmpeg" /\
    nth_error cmd 1 = Some "-y" /\
    In "-y" cmd.
Proof.
  intros Hne. exists (build_cmd output_path fps width height enable_compression).
  split.
  - rewrite create_video_popen. destruct frames; [contradiction | reflexivity].
  - destruct enable_compression; simpl; auto.
Qed.

(** ** One message, one frame *)

Lemma color_frame_of_image (frame_id : string) (h w : N) (data : list byte) :
  color_frame_of (ImageMsg frame_id h w data) =
  if N.of_nat (length data) =? h * w * 3
  then if h * w * 3 =? 0
       then raise CvError
       else ok (mkArray [h; w; 3] (swap_rb data))
  else raise (ValueError Reshape).
Proof.
  assert (Hsize : size_of [h; w; 3] = h * w * 3) by (simpl; lia).
  unfold color_frame_of, frombuffer_uint8, reshape.
  cbn [msg_data msg_height msg_width rbind ok flat]. rewrite Hsize.
  destruct (N.of_nat (length data) =? h * w * 3); [| reflexivity].
  unfold cvtColor_RGB2BGR. cbn [rbind ok shape flat]. rewrite Hsize. reflexivity.
Qed.

Lemma color_frame_of_ok (m : message) (frame : ndarray byte) :
  color_frame_of m = ok frame ->
  exists frame_id h w data,
    m = ImageMsg frame_id h w data /\
    N.of_nat (length data) = h * w * 3 /\
    frame = mkArray [h; w; 3] (swap_rb data).
Proof.
  destruct m as [frame_id h w data | |]; try discriminate.
  rewrite color_frame_of_image.
  destruct (N.eqb_spec (N.of_nat (length data)) (h * w * 3)); [| discriminate].
  destruct (h * w * 3 =? 0); [discriminate |].
  intros H. injection H as <-. eauto 8.
Qed.

Lemma uint16_samples_length_aux (n : nat) : forall data : list byte,
  (length data <= n)%nat ->
  match uint16_samples data with
  | Some l => length data = (2 * length l)%nat
  | None => exists k, length data = (2 * k + 1)%nat
  end.
Proof.
  induction n as [| n IH]; intros data Hn.
  - destruct data; [reflexivity | simpl in Hn; lia].
  - destruct data as [| lo [| hi rest]]; [reflexivity | exists 0%nat; reflexivity |].
    simpl in Hn. assert (Hrest : (length rest <= n)%nat) by lia.
    specialize (IH rest Hrest). cbn [uint16_samples].
    destruct (uint16_samples rest) as [l |].
    + cbn [length]. lia.
    + destruct IH as [k Hk]. exists (S k). cbn [length]. lia.
Qed.

Lemma uint16_samples_length (data : list byte) :
  match uint16_samples data with
  | Some l => length data = (2 * length l)%nat
  | None => exists k, length data = (2 * k + 1)%nat
  end.
Proof. apply (uint16_samples_length_aux (length data)). lia. Qed.

Section DepthFrames.

Variable fma : list N -> nat -> bool.
Variable turbo : Z -> byte * byte * byte.

Lemma depth_frame_of_image (frame_id : string) (h w : N) (data : list byte) :
  depth_frame_of fma turbo (ImageMsg frame_id h w data) =
  match uint16_samples data with
  | None => raise (ValueError Frombuffer)
  | Some l =>
      if N.of_nat (length l) =? h * w
      then if h * w =? 0
           then raise CvError
           else ok (mkArray [h; w; 3]
                      (flat_map (fun v => bgr_bytes (turbo v))
                         (mapi (fun i v => normalize_value (fma [h; w] i) (list_min l) (list_max l) v) l)))
      else raise (ValueError Reshape)
  end.
Proof.
  assert (Hsize : size_of [h; w] = h * w) by (simpl; lia).
  unfold depth_frame_of, depth_normalized_of, depth_samples_of, frombuffer_uint16.
  cbn [msg_data msg_height msg_width rbind ok].
  destruct (uint16_samples data) as [l |]; [| reflexivity].
  unfold reshape. cbn [rbind ok flat]. rewrite Hsize.
  destruct (N.of_nat (length l) =? h * w); [| reflexivity].
  unfold normalize_minmax. cbn [rbind ok shape flat]. rewrite Hsize.
  destruct (h * w =? 0); reflexivity.
Qed.

Lemma depth_frame_of_ok (m : message) (frame : ndarray byte) :
  depth_frame_of fma turbo m = ok frame ->
  exists frame_id h w data,
    m = ImageMsg frame_id h w data /\
    N.of_nat (length data) = h * w * 2 /\
    shape frame = [h; w; 3].
Proof.
  destruct m as [frame_id h w data | |]; try discriminate.
  rewrite depth_frame_of_image.
  pose proof (uint16_samples_length data) as Hlen.
  destruct (uint16_samples data) as [l |]; [| discriminate].
  destruct (N.eqb_spec (N.of_nat (length l)) (h * w)); [| discriminate].
  destruct (h * w =? 0); [discriminate |].
  intros H. injection H as <-. exists frame_id, h, w, data.
  repeat split. lia.
Qed.

(** *** The loops *)

Lemma depth_loop_ok (msgs : list (connection * message)) :
  forall (acc new : list (ndarray byte)),
    Forall2 (fun cm f => depth_frame_of fma turbo (snd cm) = ok f) msgs new ->
    depth_loop fma turbo msgs acc = ok (acc ++ new).
Proof.
  induction msgs as [| [c m] rest IH]; intros acc new H;
    inversion H as [| cm f rest' new' Hf Hall]; subst.
  - rewrite app_nil_r. reflexivity.
  - simpl in Hf. simpl depth_loop. rewrite Hf. simpl rbind.
    rewrite (IH _ _ Hall), <- app_assoc. reflexivity.
Qed.

Lemma depth_loop_inv (msgs : list (connection * message)) :
  forall (acc frames : list (ndarray byte)),
    depth_loop fma turbo msgs acc = ok frames ->
    exists new,
      frames = acc ++ new /\
      Forall2 (fun cm f => depth_frame_of fma turbo (snd cm) = ok f) msgs new.
Proof.
  induction msgs as [| [c m] rest IH]; intros acc frames H; simpl in H.
  - injection H as <-. exists []. rewrite app_nil_r. auto.
  - apply rbind_ok in H. destruct H as (f & Hf & H).
    apply IH in H. destruct H as (new & -> & Hall).
    exists (f :: new). rewrite <- app_assoc. split; [reflexivity |].
    constructor; assumption.
Qed.

Lemma depth_loop_error (pre post : list (connection * message))
    (c : connection) (m : message) (e : pyerror) :
  forall acc : list (ndarray byte),
    Forall (fun cm => exists f, depth_frame_of fma turbo (snd cm) = ok f) pre ->
    depth_frame_of fma turbo m = raise e ->
    depth_loop fma turbo (pre ++ (c, m) :: post) acc = raise e.
Proof.
  induction pre as [| [c' m'] pre IH]; intros acc Hpre Hm; simpl.
  - rewrite Hm. reflexivity.
  - inversion Hpre as [| ? ? [f Hf] Hrest]; subst. simpl in Hf. rewrite Hf. simpl.
    apply IH; assumption.
Qed.

End DepthFrames.

Lemma color_loop_ok (msgs : list (connection * message)) :
  forall (acc new : list (ndarray byte)) (fw fh : option N),
    Forall2 (fun cm f => color_frame_of (snd cm) = ok f) msgs new ->
    color_loop msgs acc fw fh =
    ok (acc ++ new, fst (first_dims fw fh new), snd (first_dims fw fh new)).
Proof.
  induction msgs as [| [c m] rest IH]; intros acc new fw fh H;
    inversion H as [| cm f rest' new' Hf Hall]; subst.
  - rewrite app_nil_r. destruct fw; reflexivity.
  - simpl in Hf. simpl color_loop. rewrite Hf. simpl rbind. destruct fw as [w0 |].
    + rewrite (IH _ _ _ _ Hall), <- app_assoc. reflexivity.
    + simpl first_dims. destruct (shape2 f) as [h1 w1].
      rewrite (IH _ _ _ _ Hall), <- app_assoc. reflexivity.
Qed.

Lemma color_loop_inv (msgs : list (connection * message)) :
  forall (acc : list (ndarray byte)) (fw fh : option N) r,
    color_loop msgs acc fw fh = ok r ->
    exists new,
      Forall2 (fun cm f => color_frame_of (snd cm) = ok f) msgs new /\
      r = (acc ++ new, fst (first_dims fw fh new), snd (first_dims fw fh new)).
Proof.
  induction msgs as [| [c m] rest IH]; intros acc fw fh r H; simpl in H.
  - injection H as <-. exists []. rewrite app_nil_r. destruct fw; auto.
  - apply rbind_ok in H. destruct H as (f & Hf & H).
    assert (Hnew : exists new,
               Forall2 (fun cm f => color_frame_of (snd cm) = ok f) rest new /\
               r = (acc ++ f :: new, fst (first_dims fw fh (f :: new)),
                    snd (first_dims fw fh (f :: new)))).
    { destruct fw as [w0 |].
      - apply IH in H. destruct H as (new & Hall & ->).
        exists new. rewrite <- app_assoc. auto.
      - destruct (shape2 f) as [h1 w1] eqn:E.
        apply IH in H. destruct H as (new & Hall & ->).
        exists new. rewrite <- app_assoc. simpl. rewrite E. auto. }
    destruct Hnew as (new & Hall & ->). exists (f :: new).
    split; [constructor; assumption | reflexivity].
Qed.

Lemma color_loop_error (pre post : list (connection * message))
    (c : connection) (m : message) (e : pyerror) :
  forall (acc : list (ndarray byte)) (fw fh : option N),
    Forall (fun cm => exists f, color_frame_of (snd cm) = ok f) pre ->
    color_frame_of m = raise e ->
    color_loop (pre ++ (c, m) :: post) acc fw fh = raise e.
Proof.
  induction pre as [| [c' m'] pre IH]; intros acc fw fh Hpre Hm; simpl.
  - rewrite Hm. reflexivity.
  - inversion Hpre as [| ? ? [f Hf] Hrest]; subst. simpl in Hf. rewrite Hf. simpl.
    destruct fw; [| destruct (shape2 f)]; apply IH; assumption.
Qed.

(** ** Frame dimensions *)

Lemma Forall2_Forall_transfer {A B} (R : A -> B -> Prop) (P : A -> Prop)
    (Q : B -> Prop) (l : list A) (l' : list B) :
  (forall a b, R a b -> P a -> Q b) ->
  Forall2 R l l' -> Forall P l -> Forall Q l'.
Proof.
  intros HR H. induction H as [| a b l l' Hab _ IH]; intros HP; constructor;
    inversion HP; subst; eauto.
Qed.

Lemma Forall2_weaken {A B} (R R' : A -> B -> Prop) (l : list A) (l' : list B) :
  (forall a b, R a b -> R' a b) -> Forall2 R l l' -> Forall2 R' l l'.
Proof. intros HR H. induction H; constructor; auto. Qed.

Lemma color_frame_declared (m : message) (f : ndarray byte) :
  color_frame_of m = ok f ->
  exists h w, declares h w m /\ shape f = [h; w; 3].
Proof.
  intros H. apply color_frame_of_ok in H.
  destruct H as (frame_id & h & w & data & -> & _ & ->).
  exists h, w. simpl. auto.
Qed.

(** The frames of the colour extractor hold as many bytes as their shape
    says. *)
Lemma color_frame_wf (m : message) (f : ndarray byte) :
  color_frame_of m = ok f -> wf_array f.
Proof.
  intros H. apply color_frame_of_ok in H.
  destruct H as (frame_id & h & w & data & _ & Hlen & ->).
  unfold wf_array. cbn [shape flat].
  rewrite (swap_rb_length (N.to_nat (h * w)) data) by lia.
  rewrite Hlen. simpl. lia.
Qed.

Lemma depth_frame_declared fma turbo (m : message) (f : ndarray byte) :
  depth_frame_of fma turbo m = ok f ->
  exists h w, declares h w m /\ shape f = [h; w; 3].
Proof.
  intros H. apply depth_frame_of_ok in H.
  destruct H as (frame_id & h & w & data & -> & _ & Hs).
  exists h, w. simpl. auto.
Qed.

Lemma declared_shape (h w : N) (m : message) (f : ndarray byte) :
  (exists h' w', declares h' w' m /\ shape f = [h'; w'; 3]) ->
  declares h w m -> shape f = [h; w; 3].
Proof.
  intros (h' & w' & Hd & Hs) Hm. destruct m; simpl in *; try contradiction.
  destruct Hd as [<- <-]. destruct Hm as [<- <-]. exact Hs.
Qed.

(** C7, as amended.  Every frame an extractor returns has the height and
    width its own message declares; the colour extractor reports the width
    and height of the first frame (nothing on no frame); and when all
    messages of the channel declare one height and width, every frame of
    the sequence has them. *)
Theorem frames_keep_declared_dimensions fma turbo (reader : recording) :
  let color_msgs := reader_messages reader (connections_on COLOR_TOPIC reader) in
  let depth_msgs := reader_messages reader (connections_on DEPTH_TOPIC reader) in
  (forall frames fps fw fh,
      extract_color_frames reader = ok (frames, fps, fw, fh) ->
      Forall2 (fun cm f => exists h w, declares h w (snd cm) /\ shape f = [h; w; 3])
        color_msgs frames /\
      (fw, fh) = match frames with
                 | [] => (None, None)
                 | f :: _ => (Some (snd (shape2 f)), Some (fst (shape2 f)))
                 end /\
      forall h w, Forall (fun cm => declares h w (snd cm)) color_msgs ->
                  Forall (fun f => shape f = [h; w; 3]) frames) /\
  (forall frames,
      extract_depth_frames fma turbo reader = ok frames ->
      Forall2 (fun cm f => exists h w, declares h w (snd cm) /\ shape f = [h; w; 3])
        depth_msgs frames /\
      forall h w, Forall (fun cm => declares h w (snd cm)) depth_msgs ->
                  Forall (fun f => shape f = [h; w; 3]) frames).
Proof.
  intros color_msgs depth_msgs. split.
  - intros frames fps fw fh H. unfold extract_color_frames in H.
    apply rbind_ok in H. destruct H as ([[fs fw'] fh'] & Hloop & H).
    injection H as <- <- <- <-.
    apply color_loop_inv in Hloop. destruct Hloop as (new & Hall & E).
    simpl in E. injection E as -> -> ->.
    assert (Hdecl : Forall2
              (fun cm f => exists h w, declares h w (snd cm) /\ shape f = [h; w; 3])
              color_msgs new).
    { eapply Forall2_weaken; [| exact Hall].
      intros cm f Hf. apply color_frame_declared. exact Hf. }
    split; [exact Hdecl |]. split; [destruct new; reflexivity |].
    intros h w Hsame. eapply Forall2_Forall_transfer; [| exact Hdecl | exact Hsame].
    intros cm f Hcm Hd. exact (declared_shape h w (snd cm) f Hcm Hd).
  - intros frames H. unfold extract_depth_frames in H.
    apply depth_loop_inv in H. destruct H as (new & -> & Hall). simpl.
    assert (Hdecl : Forall2
              (fun cm f => exists h w, declares h w (snd cm) /\ shape f = [h; w; 3])
              depth_msgs new).
    { eapply Forall2_weaken; [| exact Hall].
      intros cm f Hf. eapply depth_frame_declared. exact Hf. }
    split; [exact Hdecl |].
    intros h w Hsame. eapply Forall2_Forall_transfer; [| exact Hdecl | exact Hsame].
    intros cm f Hcm Hd. exact (declared_shape h w (snd cm) f Hcm Hd).
Qed.

(** C8.  A colour message is refused with numpy's [ValueError] from
    [reshape] exactly when its buffer does not hold [height * width * 3]
    bytes, a depth message with numpy's [ValueError] exactly when its buffer
    does not hold [height * width * 2] bytes; and an extractor that meets
    such a message after messages it could convert ends with that error
    instead of a frame sequence. *)
Theorem malformed_frames_are_rejected fma turbo :
  (forall frame_id h w data,
      color_frame_of (ImageMsg frame_id h w data) = raise (ValueError Reshape) <->
      N.of_nat (length data) <> h * w * 3) /\
  (forall frame_id h w data,
      (exists site, depth_frame_of fma turbo (ImageMsg frame_id h w data) =
                    raise (ValueError site)) <->
      N.of_nat (length data) <> h * w * 2) /\
  (forall reader pre conn frame_id h w data post,
      reader_messages reader (connections_on COLOR_TOPIC reader) =
        pre ++ (conn, ImageMsg frame_id h w data) :: post ->
      Forall (fun cm => exists f, color_frame_of (snd cm) = ok f) pre ->
      N.of_nat (length data) <> h * w * 3 ->
      extract_color_frames reader = raise (ValueError Reshape)) /\
  (forall reader pre conn frame_id h w data post,
      reader_messages reader (connections_on DEPTH_TOPIC reader) =
        pre ++ (conn, ImageMsg frame_id h w data) :: post ->
      Forall (fun cm => exists f, depth_frame_of fma turbo (snd cm) = ok f) pre ->
      N.of_nat (length data) <> h * w * 2 ->
      exists site, extract_depth_frames fma turbo reader = raise (ValueError site)).
Proof.
  assert (Hcolor : forall frame_id h w data,
             color_frame_of (ImageMsg frame_id h w data) = raise (ValueError Reshape) <->
             N.of_nat (length data) <> h * w * 3).
  { intros frame_id h w data. rewrite color_frame_of_image.
    destruct (N.eqb_spec (N.of_nat (length data)) (h * w * 3)) as [E | E].
    - split; [| contradiction]. destruct (h * w * 3 =? 0); discriminate.
    - split; [intros _; exact E | reflexivity]. }
  assert (Hdepth : forall frame_id h w data,
             (exists site, depth_frame_of fma turbo (ImageMsg frame_id h w data) =
                           raise (ValueError site)) <->
             N.of_nat (length data) <> h * w * 2).
  { intros frame_id h w data. rewrite depth_frame_of_image.
    pose proof (uint16_samples_length data) as Hlen.
    destruct (uint16_samples data) as [l |].
    - destruct (N.eqb_spec (N.of_nat (length l)) (h * w)) as [E | E].
      + split; [| lia]. intros [site H]. destruct (h * w =? 0); discriminate.
      + split; [lia | eauto].
    - destruct Hlen as [k Hk]. split; [lia | eauto]. }
  split; [exact Hcolor |]. split; [exact Hdepth |]. split.
  - intros reader pre conn frame_id h w data post Hmsgs Hpre Hbad.
    unfold extract_color_frames. rewrite Hmsgs.
    rewrite (color_loop_error pre post conn _ (ValueError Reshape)); auto.
    apply Hcolor. exact Hbad.
  - intros reader pre conn frame_id h w data post Hmsgs Hpre Hbad.
    apply Hdepth with (frame_id := frame_id) in Hbad. destruct Hbad as [site Hsite].
    exists site. unfold extract_depth_frames. rewrite Hmsgs.
    apply depth_loop_error; assumption.
Qed.

(** ** The driver *)

Lemma popen_cmds_bind {A B} (m : io A) (k : A -> io B) :
  popen_cmds (fst (io_bind m k)) =
  popen_cmds (fst m) ++
  match snd m with
  | inl _ => []
  | inr a => popen_cmds (fst (k a))
  end.
Proof.
  unfold io_bind. destruct (snd m); simpl.
  - rewrite app_nil_r. reflexivity.
  - apply popen_cmds_app.
Qed.

Lemma imu_loop_no_popen (msgs : list (connection * message)) :
  popen_cmds (fst (imu_loop msgs)) = [].
Proof.
  induction msgs as [| [c m] rest IH]; [reflexivity |].
  cbn [imu_loop]. rewrite popen_cmds_bind. unfold lift. cbn [fst snd].
  destruct (msg_frame_id m); [reflexivity |].
  rewrite popen_cmds_bind. cbn [emit fst snd]. exact IH.
Qed.

Lemma no_message_on_topic (t : string) (reader : recording) :
  connections_on t reader <> [] ->
  Forall (fun cm => topic (fst cm) <> t) (stored reader) ->
  reader_messages reader (connections_on t reader) = [].
Proof.
  intros Hcs Hnone. unfold reader_messages.
  destruct (connections_on t reader) as [| c0 cs] eqn:E; [contradiction |].
  assert (Htopic : forall c, In c (c0 :: cs) -> topic c = t).
  { intros c Hc. rewrite <- E in Hc. unfold connections_on in Hc.
    apply filter_In in Hc. destruct Hc as [_ Hc]. apply String.eqb_eq. exact Hc. }
  induction Hnone as [| cm rest Hcm _ IH]; [reflexivity |].
  cbn [filter]. rewrite IH.
  replace (on_topics (c0 :: cs) cm) with false; [reflexivity |].
  symmetry. unfold on_topics. apply not_true_is_false. intros Hex.
  apply existsb_exists in Hex. destruct Hex as (c & Hc & Heq).
  apply String.eqb_eq in Heq. rewrite (Htopic c Hc) in Heq. congruence.
Qed.

(** X17.  The driver's guard at work: with a colour connection but no message on
    the colour topic, the run launches no process and ends either on an
    exception of an extractor or on the printed frame-size error. *)
Lemma main_aborts_without_color_messages ffmpeg fma turbo (reader : recording) :
  connections_on COLOR_TOPIC reader <> [] ->
  Forall (fun cm => topic (fst cm) <> COLOR_TOPIC) (stored reader) ->
  let run := main ffmpeg fma turbo reader in
  popen_cmds (fst run) = [] /\
  ((exists e, snd run = raise e) \/
   (snd run = ok tt /\
    exists before,
      fst run = before ++ [EvPrint "Error: Could not determine frame size."])).
Proof.
  intros Hcs Hnone run.
  assert (Hcolor : extract_color_frames reader = ok ([], 30, None, None)).
  { unfold extract_color_frames. rewrite no_message_on_topic by assumption.
    reflexivity. }
  unfold run, main. rewrite Hcolor.
  pose proof (imu_loop_no_popen
                (reader_messages reader (connections_on IMU_TOPIC reader))) as Himu.
  fold (extract_imu_data reader) in Himu.
  destruct (extract_imu_data reader) as [t [e | []]]; simpl in Himu.
  - split; [simpl; rewrite Himu; reflexivity |]. left. exists e. reflexivity.
  - destruct (extract_depth_frames fma turbo reader) as [e | depth_frames].
    + split; [| left; exists e; reflexivity].
      cbn. rewrite popen_cmds_app, Himu. reflexivity.
    + split.
      * cbn. rewrite popen_cmds_app, Himu. reflexivity.
      * right. split; [reflexivity |].
        exists (EvMkdir OUTPUT_DIR :: EvPrint "Extracting IMU data..." :: t ++
                  [EvPrint "Extracting color frames...";
                   EvPrint "Extracting depth frames..."]).
        cbn. rewrite <- app_assoc. reflexivity.
Qed.

(** C5 at a recording without colour connection: the colour channel holds
    no message, yet the unfiltered read hands the image of another topic to
    the colour extractor, and the driver goes on to launch the encoder for
    the colour video, whatever the process then does; when the process
    reads its input and its diagnostic text decodes, the foreign image's
    bytes are written to it and the run returns. *)
Theorem main_encodes_foreign_image ffmpeg fma turbo :
  connections_on COLOR_TOPIC rec_foreign_image = [] /\
  filter (fun cm => String.eqb (topic (fst cm)) COLOR_TOPIC)
    (stored rec_foreign_image) = [] /\
  extract_color_frames rec_foreign_image =
    ok ([mkArray [1; 1; 3] [x1e; x14; x0a]], 30, Some 1, Some 1) /\
  popen_cmds (fst (main ffmpeg fma turbo rec_foreign_image)) =
    [build_cmd "output/color_video.mp4" 30 1 1 false] /\
  (forall text,
      reads_all (ffmpeg (build_cmd "output/color_video.mp4" 30 1 1 false)
                   [x1e; x14; x0a]) ->
      stderr_text (ffmpeg (build_cmd "output/color_video.mp4" 30 1 1 false)
                     [x1e; x14; x0a]) = Some text ->
      stdin_bytes (fst (main ffmpeg fma turbo rec_foreign_image)) = [x1e; x14; x0a] /\
      snd (main ffmpeg fma turbo rec_foreign_image) = ok tt).
Proof.
  split; [reflexivity |]. split; [reflexivity |]. split; [reflexivity |].
  assert (Hrun : main ffmpeg fma turbo rec_foreign_image =
                 (let video :=
                    create_video ffmpeg [mkArray [1; 1; 3] [x1e; x14; x0a]]
                      "output/color_video.mp4" 30 1 1 false in
                  ([EvMkdir "output"; EvPrint "Extracting IMU data...";
                    EvPrint "camera_color"; EvPrint "Extracting color frames...";
                    EvPrint "Extracting depth frames..."] ++ fst video,
                   snd video))).
  { unfold main. cbv -[create_video].
    destruct (create_video _ _ _ _ _ _ _) as [t [e | []]]; [reflexivity |].
    repeat f_equal. exact (app_nil_r t). }
  rewrite Hrun. cbv zeta. cbn [fst snd]. split.
  - rewrite popen_cmds_app, create_video_popen. reflexivity.
  - intros text Hp Ht.
    rewrite (create_video_run ffmpeg [mkArray [1; 1; 3] [x1e; x14; x0a]]
               "output/color_video.mp4" 30 1 1 false text) by
      (try discriminate; assumption).
    split; reflexivity.
Qed.

(** * The theorems at sample inputs *)

(** C3 as stated fails where the frames are not of the size passed to the
    encoder: the driver passes the colour resolution (1x1) with the 1x2
    depth frame, and six bytes are written where the formula gives three. *)
Lemma create_video_byte_count_counterexample :
  extract_color_frames rec_two_resolutions = ok ([bgr_1x1], 30, Some 1, Some 1) /\
  extract_depth_frames sample_fma sample_colormap rec_two_resolutions = ok [depth_colored_1x2] /\
  [depth_colored_1x2] <> [] /\
  N.of_nat (length (stdin_bytes (fst (create_video ffmpeg_succeeds [depth_colored_1x2]
                                        "output/depth_video.mp4" 30 1 1 false)))) = 6 /\
  N.of_nat (length [depth_colored_1x2]) * 1 * 1 * 3 = 3 /\
  N.of_nat (length (stdin_bytes (fst (create_video ffmpeg_succeeds [depth_colored_1x2]
                                        "output/depth_video.mp4" 30 1 1 false)))) <>
  N.of_nat (length [depth_colored_1x2]) * 1 * 1 * 3.
Proof.
  split; [reflexivity |]. split; [reflexivity |]. split; [discriminate |].
  split; [reflexivity |]. split; [reflexivity |]. discriminate.
Qed.

Lemma create_video_streams_frames_witness :
  [bgr_1x1; bgr_1x1] <> [] /\
  stdin_bytes (fst (create_video ffmpeg_succeeds [bgr_1x1; bgr_1x1]
                      "output/color_video.mp4" 30 1 1 false)) =
  [x1e; x14; x0a; x1e; x14; x0a] /\
  N.of_nat (length (stdin_bytes (fst (create_video ffmpeg_succeeds [bgr_1x1; bgr_1x1]
                                        "output/color_video.mp4" 30 1 1 false)))) =
  2 * 1 * 1 * 3 /\
  exists k,
    stdin_bytes (fst (create_video ffmpeg_exits_early [bgr_1x1; bgr_1x1]
                        "output/color_video.mp4" 30 1 1 false)) =
    concat (firstn k (map tobytes [bgr_1x1; bgr_1x1])).
Proof.
  assert (Hne : [bgr_1x1; bgr_1x1] <> []) by discriminate.
  split; [exact Hne |].
  destruct (create_video_streams_frames ffmpeg_succeeds [bgr_1x1; bgr_1x1]
              "output/color_video.mp4" 30 1 1 false Hne) as (_ & Hnormal).
  destruct (create_video_streams_frames ffmpeg_exits_early [bgr_1x1; bgr_1x1]
              "output/color_video.mp4" 30 1 1 false Hne) as (Hprefix & _).
  destruct (Hnormal (conj eq_refl eq_refl)) as (_ & Hbytes & Hcount).
  split; [rewrite Hbytes; reflexivity |].
  split; [apply Hcount; repeat constructor | exact Hprefix].
Defined.

Lemma create_video_profile_witness :
  [bgr_1x1] <> [] /\
  adjacent "-crf" "0" (build_cmd "output/color_video.mp4" 30 1 1 false) /\
  exists options,
    build_cmd "output/color_video.mp4" 30 1 1 true =
    options ++ ["-b:v"; "24000k"; "output/color_video.mp4"].
Proof.
  assert (Hne : [bgr_1x1] <> []) by discriminate.
  split; [exact Hne |].
  destruct (create_video_profile ffmpeg_succeeds [bgr_1x1]
              "output/color_video.mp4" 30 1 1 false Hne) as (_ & Hoff & _).
  destruct (create_video_profile ffmpeg_succeeds [bgr_1x1]
              "output/color_video.mp4" 30 1 1 true Hne) as (_ & _ & Hon).
  destruct (Hoff eq_refl) as (_ & Hcrf & _).
  destruct (Hon eq_refl) as (options & Hcmd & _).
  split; [exact Hcrf |]. exists options. exact Hcmd.
Defined.



(** C5 at work with a process that reads its input. *)
Lemma main_encodes_foreign_image_witness :
  reads_all (ffmpeg_succeeds (build_cmd "output/color_video.mp4" 30 1 1 false)
               [x1e; x14; x0a]) /\
  popen_cmds (fst (main ffmpeg_succeeds sample_fma sample_colormap rec_foreign_image)) =
    [build_cmd "output/color_video.mp4" 30 1 1 false] /\
  stdin_bytes (fst (main ffmpeg_succeeds sample_fma sample_colormap rec_foreign_image)) =
    [x1e; x14; x0a] /\
  snd (main ffmpeg_succeeds sample_fma sample_colormap rec_foreign_image) = ok tt.
Proof.
  assert (Hp : reads_all (ffmpeg_succeeds (build_cmd "output/color_video.mp4" 30 1 1 false)
                            [x1e; x14; x0a])) by (split; reflexivity).
  split; [exact Hp |].
  destruct (main_encodes_foreign_image ffmpeg_succeeds sample_fma sample_colormap)
    as (_ & _ & _ & Hpopen & Hnormal).
  destruct (Hnormal "" Hp eq_refl) as [Hbytes Hret].
  split; [exact Hpopen |]. split; [exact Hbytes | exact Hret].
Defined.

Lemma create_video_overwrites_witness :
  [bgr_1x1] <> [] /\
  exists cmd,
    popen_cmds (fst (create_video ffmpeg_succeeds [bgr_1x1] "output/color_video.mp4"
                       30 1 1 true)) = [cmd] /\
    In "-y" cmd.
Proof.
  assert (Hne : [bgr_1x1] <> []) by discriminate.
  split; [exact Hne |].
  destruct (create_video_overwrites ffmpeg_succeeds [bgr_1x1]
              "output/color_video.mp4" 30 1 1 true Hne) as (cmd & Hcmd & _ & _ & Hin).
  exists cmd. split; [exact Hcmd | exact Hin].
Defined.

(** C7 as stated fails on a stream whose resolution changes: the second
    frame is 1x2 while the first frame, and the reported resolution, is
    1x1. *)
Lemma frame_dimensions_counterexample :
  extract_color_frames rec_resized = ok ([bgr_1x1; bgr_1x2], 30, Some 1, Some 1) /\
  shape2 bgr_1x1 = (1, 1) /\
  shape2 bgr_1x2 = (1, 2) /\
  ~ (forall reader frames fps fw fh,
        extract_color_frames reader = ok (frames, fps, fw, fh) ->
        forall f, In f frames ->
                  Some (snd (shape2 f)) = fw /\ Some (fst (shape2 f)) = fh).
Proof.
  split; [reflexivity |]. split; [reflexivity |]. split; [reflexivity |].
  intros H.
  destruct (H rec_resized [bgr_1x1; bgr_1x2] 30 (Some 1) (Some 1) eq_refl bgr_1x2)
    as [Hw _]; [right; left; reflexivity |].
  discriminate Hw.
Qed.

Lemma frames_keep_declared_dimensions_witness :
  extract_color_frames rec_two_frames = ok ([bgr_1x2; bgr_1x2b], 30, Some 2, Some 1) /\
  extract_depth_frames sample_fma sample_colormap rec_two_frames =
    ok [depth_colored_1x2; depth_colored_1x2b] /\
  Forall (fun cm => declares 1 2 (snd cm))
    (reader_messages rec_two_frames (connections_on COLOR_TOPIC rec_two_frames)) /\
  Forall (fun cm => declares 1 2 (snd cm))
    (reader_messages rec_two_frames (connections_on DEPTH_TOPIC rec_two_frames)) /\
  Forall (fun f => shape f = [1; 2; 3]) [bgr_1x2; bgr_1x2b] /\
  Forall (fun f => shape f = [1; 2; 3]) [depth_colored_1x2; depth_colored_1x2b] /\
  extract_color_frames rec_resized = ok ([bgr_1x1; bgr_1x2], 30, Some 1, Some 1) /\
  Forall2 (fun cm f => exists h w, declares h w (snd cm) /\ shape f = [h; w; 3])
    (reader_messages rec_resized (connections_on COLOR_TOPIC rec_resized))
    [bgr_1x1; bgr_1x2].
Proof.
  assert (Hc2 : Forall (fun cm => declares 1 2 (snd cm))
                  (reader_messages rec_two_frames
                     (connections_on COLOR_TOPIC rec_two_frames))).
  { repeat constructor. }
  assert (Hd2 : Forall (fun cm => declares 1 2 (snd cm))
                  (reader_messages rec_two_frames
                     (connections_on DEPTH_TOPIC rec_two_frames))).
  { repeat constructor. }
  destruct (frames_keep_declared_dimensions sample_fma sample_colormap rec_two_frames)
    as [Hcolor Hdepth].
  destruct (frames_keep_declared_dimensions sample_fma sample_colormap rec_resized)
    as [Hresized _].
  destruct (Hcolor [bgr_1x2; bgr_1x2b] 30 (Some 2) (Some 1) eq_refl) as (_ & _ & Hc).
  destruct (Hdepth [depth_colored_1x2; depth_colored_1x2b] eq_refl) as (_ & Hd).
  destruct (Hresized [bgr_1x1; bgr_1x2] 30 (Some 1) (Some 1) eq_refl) as (Hown & _ & _).
  split; [reflexivity |]. split; [reflexivity |].
  split; [exact Hc2 |]. split; [exact Hd2 |].
  split; [apply Hc; exact Hc2 |]. split; [apply Hd; exact Hd2 |].
  split; [reflexivity | exact Hown].
Defined.

Lemma malformed_frames_are_rejected_witness :
  N.of_nat (length [x0a]) <> 1 * 1 * 3 /\
  color_frame_of (ImageMsg "camera_color" 1 1 [x0a]) = raise (ValueError Reshape) /\
  (exists f, color_frame_of rgb_1x1 = ok f) /\
  extract_color_frames rec_truncated = raise (ValueError Reshape) /\
  exists site,
    depth_frame_of sample_fma sample_colormap (ImageMsg "camera_depth" 1 2 [x00; x00; xe8]) =
    raise (ValueError site).
Proof.
  assert (Hbad : N.of_nat (length [x0a]) <> 1 * 1 * 3) by discriminate.
  assert (Hbad' : N.of_nat (length [x00; x00; xe8]) <> 1 * 2 * 2) by discriminate.
  assert (Hgood : exists f, color_frame_of rgb_1x1 = ok f)
    by (exists bgr_1x1; reflexivity).
  destruct (malformed_frames_are_rejected sample_fma sample_colormap)
    as (Hcolor & Hdepth & Hxc & _).
  split; [exact Hbad |].
  split; [apply Hcolor; exact Hbad |].
  split; [exact Hgood |].
  split.
  - apply (Hxc rec_truncated [(color_conn, rgb_1x1)] color_conn "camera_color"
             1 1 [x0a] []); [reflexivity | | exact Hbad].
    constructor; [exact Hgood | constructor].
  - apply Hdepth. exact Hbad'.
Defined.

(** * Further properties of the extractors, the encoder and the driver *)

(** ** extract_imu_data *)

Lemma imu_loop_prints (msgs : list (connection * message)) (ids : list string) :
  Forall2 (fun cm id => msg_frame_id (snd cm) = ok id) msgs ids ->
  imu_loop msgs = (map EvPrint ids, ok tt).
Proof.
  induction 1 as [| [c m] id rest ids Hid _ IH]; [reflexivity |].
  simpl in Hid. cbn [imu_loop]. rewrite Hid, IH. reflexivity.
Qed.

Lemma imu_loop_stops (pre post : list (connection * message)) (ids : list string)
    (c : connection) (m : message) (e : pyerror) :
  Forall2 (fun cm id => msg_frame_id (snd cm) = ok id) pre ids ->
  msg_frame_id m = raise e ->
  imu_loop (pre ++ (c, m) :: post) = (map EvPrint ids, raise e).
Proof.
  induction 1 as [| [c' m'] id rest ids Hid _ IH]; intros Hm.
  - cbn [app imu_loop]. rewrite Hm. reflexivity.
  - simpl in Hid. cbn [app imu_loop]. rewrite Hid, (IH Hm). reflexivity.
Qed.

(** X1.  When every message the inertial read yields has a header, the
    reporter prints the frame identifiers, one line per message in stored
    order, does nothing else and returns. *)
Theorem extract_imu_data_prints_frame_ids (reader : recording) (ids : list string) :
  Forall2 (fun cm id => msg_frame_id (snd cm) = ok id)
    (reader_messages reader (connections_on IMU_TOPIC reader)) ids ->
  extract_imu_data reader = (map EvPrint ids, ok tt) /\
  printed (fst (extract_imu_data reader)) = ids /\
  length ids = length (reader_messages reader (connections_on IMU_TOPIC reader)).
Proof.
  intros H. unfold extract_imu_data. rewrite (imu_loop_prints _ _ H).
  split; [reflexivity |]. split.
  - simpl. clear H. induction ids as [| i ids IH]; [reflexivity |].
    cbn [map]. change (printed (EvPrint i :: ?t)) with (i :: printed t).
    rewrite IH. reflexivity.
  - symmetry. eapply Forall2_length. exact H.
Qed.

Lemma extract_imu_data_prints_frame_ids_witness :
  Forall2 (fun cm id => msg_frame_id (snd cm) = ok id)
    (reader_messages rec_with_imu (connections_on IMU_TOPIC rec_with_imu))
    ["imu_link"; "imu_link_2"] /\
  extract_imu_data rec_with_imu =
  ([EvPrint "imu_link"; EvPrint "imu_link_2"], ok tt).
Proof.
  assert (H : Forall2 (fun cm id => msg_frame_id (snd cm) = ok id)
                (reader_messages rec_with_imu (connections_on IMU_TOPIC rec_with_imu))
                ["imu_link"; "imu_link_2"]).
  { repeat constructor. }
  split; [exact H |].
  exact (proj1 (extract_imu_data_prints_frame_ids rec_with_imu _ H)).
Defined.

(** X2.  At the first message without a header the reporter raises
    [AttributeError]: the frame identifiers of the messages before it are
    printed, nothing of the messages after it. *)
Theorem extract_imu_data_stops_at_headerless (reader : recording)
    (pre post : list (connection * message)) (ids : list string)
    (c : connection) :
  reader_messages reader (connections_on IMU_TOPIC reader) =
    pre ++ (c, OtherMsg) :: post ->
  Forall2 (fun cm id => msg_frame_id (snd cm) = ok id) pre ids ->
  extract_imu_data reader = (map EvPrint ids, raise AttributeError).
Proof.
  intros Hmsgs Hpre. unfold extract_imu_data. rewrite Hmsgs.
  apply imu_loop_stops; [exact Hpre | reflexivity].
Qed.

Lemma extract_imu_data_stops_at_headerless_witness :
  reader_messages rec_headerless (connections_on IMU_TOPIC rec_headerless) =
    [(color_conn, rgb_1x1)] ++ (tf_conn, OtherMsg) :: [(color_conn, rgb_1x1)] /\
  extract_imu_data rec_headerless = ([EvPrint "camera_color"], raise AttributeError).
Proof.
  split; [reflexivity |].
  apply (extract_imu_data_stops_at_headerless rec_headerless
           [(color_conn, rgb_1x1)] [(color_conn, rgb_1x1)] ["camera_color"] tf_conn).
  - reflexivity.
  - repeat constructor.
Defined.

(** ** The extractors as a whole *)

Lemma first_dims_fresh (new : list (ndarray byte)) :
  first_dims None None new =
  match new with
  | [] => (None, None)
  | f :: _ => (Some (snd (shape2 f)), Some (fst (shape2 f)))
  end.
Proof. destruct new; reflexivity. Qed.

Lemma extract_color_frames_iff (reader : recording)
    (frames : list (ndarray byte)) (fps : N) (fw fh : option N) :
  extract_color_frames reader = ok (frames, fps, fw, fh) <->
  Forall2 (fun cm f => color_frame_of (snd cm) = ok f)
    (reader_messages reader (connections_on COLOR_TOPIC reader)) frames /\
  fps = 30 /\
  (fw, fh) = first_dims None None frames.
Proof.
  unfold extract_color_frames. split.
  - intros H. apply rbind_ok in H. destruct H as ([[fs fw'] fh'] & Hloop & H).
    injection H as <- <- <- <-.
    apply color_loop_inv in Hloop. destruct Hloop as (new & Hall & E).
    simpl in E. injection E as -> -> ->.
    split; [exact Hall |]. split; [reflexivity |].
    destruct new; reflexivity.
  - intros (Hall & -> & Hdims).
    rewrite (color_loop_ok _ [] frames None None Hall), <- Hdims. reflexivity.
Qed.

Lemma extract_depth_frames_iff fma turbo (reader : recording)
    (frames : list (ndarray byte)) :
  extract_depth_frames fma turbo reader = ok frames <->
  Forall2 (fun cm f => depth_frame_of fma turbo (snd cm) = ok f)
    (reader_messages reader (connections_on DEPTH_TOPIC reader)) frames.
Proof.
  unfold extract_depth_frames. split.
  - intros H. apply depth_loop_inv in H. destruct H as (new & -> & Hall). exact Hall.
  - intros Hall. rewrite (depth_loop_ok fma turbo _ [] frames Hall). reflexivity.
Qed.

(** X3.  The extractors are all-or-nothing and keep the order: the colour
    extractor returns a sequence exactly when every message it reads
    converts, the sequence then holding the frame of each message in stored
    order, one frame per message, with frame rate 30; likewise the depth
    extractor. *)
Theorem extractors_convert_every_message fma turbo (reader : recording) :
  (forall frames fps fw fh,
      extract_color_frames reader = ok (frames, fps, fw, fh) <->
      Forall2 (fun cm f => color_frame_of (snd cm) = ok f)
        (reader_messages reader (connections_on COLOR_TOPIC reader)) frames /\
      fps = 30 /\
      (fw, fh) = first_dims None None frames) /\
  (forall frames,
      extract_depth_frames fma turbo reader = ok frames <->
      Forall2 (fun cm f => depth_frame_of fma turbo (snd cm) = ok f)
        (reader_messages reader (connections_on DEPTH_TOPIC reader)) frames) /\
  (forall frames fps fw fh,
      extract_color_frames reader = ok (frames, fps, fw, fh) ->
      length frames =
      length (reader_messages reader (connections_on COLOR_TOPIC reader))) /\
  (forall frames,
      extract_depth_frames fma turbo reader = ok frames ->
      length frames =
      length (reader_messages reader (connections_on DEPTH_TOPIC reader))).
Proof.
  split; [intros; apply extract_color_frames_iff |].
  split; [intros; apply extract_depth_frames_iff |].
  split.
  - intros frames fps fw fh H. apply extract_color_frames_iff in H.
    destruct H as (Hall & _). symmetry. eapply Forall2_length. exact Hall.
  - intros frames H. apply extract_depth_frames_iff in H.
    symmetry. eapply Forall2_length. exact H.
Qed.

Lemma extractors_convert_every_message_witness :
  extract_color_frames rec_with_imu = ok ([bgr_1x1], 30, Some 1, Some 1) /\
  extract_depth_frames sample_fma sample_colormap rec_with_imu = ok [depth_colored_1x2] /\
  length [bgr_1x1] =
  length (reader_messages rec_with_imu (connections_on COLOR_TOPIC rec_with_imu)).
Proof.
  destruct (extractors_convert_every_message sample_fma sample_colormap rec_with_imu)
    as (Hc & Hd & Hlc & _).
  assert (Hcolor : extract_color_frames rec_with_imu =
                   ok ([bgr_1x1], 30, Some 1, Some 1)).
  { apply Hc. split; [repeat constructor |]. split; reflexivity. }
  split; [exact Hcolor |]. split.
  - apply Hd. repeat constructor.
  - exact (Hlc _ _ _ _ Hcolor).
Defined.

(** X4.  The colour extractor reports a width and a height exactly when it
    returns at least one frame: both are [None] on an empty sequence, and
    otherwise both are known. *)
Theorem color_resolution_known_iff_frames (reader : recording)
    (frames : list (ndarray byte)) (fps : N) (fw fh : option N) :
  extract_color_frames reader = ok (frames, fps, fw, fh) ->
  (frames = [] <-> fw = None) /\
  (frames = [] <-> fh = None) /\
  (frames <> [] <-> exists w h, fw = Some w /\ fh = Some h).
Proof.
  intros H. apply extract_color_frames_iff in H. destruct H as (_ & _ & Hdims).
  rewrite first_dims_fresh in Hdims.
  destruct frames as [| f fs]; injection Hdims as -> ->.
  - repeat split; auto; try discriminate. 
    + intros Hne. contradiction.
    + intros (w & h & Hw & _). discriminate.
  - repeat split; try discriminate. eauto.
Qed.

Lemma color_resolution_known_iff_frames_witness :
  extract_color_frames rec_no_color_message = ok ([], 30, None, None) /\
  (([] : list (ndarray byte)) = [] <-> (None : option N) = None) /\
  extract_color_frames rec_resized = ok ([bgr_1x1; bgr_1x2], 30, Some 1, Some 1) /\
  ([bgr_1x1; bgr_1x2] <> [] <-> exists w h, Some 1 = Some w /\ Some 1 = Some h) /\
  ([bgr_1x1; bgr_1x2] = [] <-> Some 1 = None).
Proof.
  assert (H : extract_color_frames rec_no_color_message = ok ([], 30, None, None))
    by reflexivity.
  assert (H' : extract_color_frames rec_resized =
               ok ([bgr_1x1; bgr_1x2], 30, Some 1, Some 1)) by reflexivity.
  destruct (color_resolution_known_iff_frames rec_no_color_message _ _ _ _ H)
    as (Hnone & _ & _).
  destruct (color_resolution_known_iff_frames rec_resized _ _ _ _ H')
    as (Hw & _ & Hsome).
  split; [exact H |]. split; [exact Hnone |]. split; [exact H' |].
  split; [exact Hsome | exact Hw].
Defined.

(** ** The colour conversion loses nothing *)

Lemma swap_rb_involutive (n : nat) : forall l : list byte,
  length l = (3 * n)%nat -> swap_rb (swap_rb l) = l.
Proof.
  induction n as [| n IH]; intros l Hl.
  - destruct l; [reflexivity | discriminate].
  - destruct l as [| c0 [| c1 [| c2 rest]]]; simpl in Hl; try lia.
    simpl. rewrite (IH rest) by lia. reflexivity.
Qed.

Lemma swap_rb_same_length (h w : N) (data : list byte) :
  N.of_nat (length data) = h * w * 3 ->
  length (swap_rb data) = length data.
Proof.
  intros H. apply (swap_rb_length (N.to_nat (h * w))). lia.
Qed.

(** X5.  The colour conversion is its own inverse: the bytes of a frame,
    read again as a message of the same height and width, convert to the
    pixel buffer of the original message. *)
Theorem color_frame_round_trip (frame_id frame_id' : string) (h w : N)
    (data : list byte) (frame : ndarray byte) :
  color_frame_of (ImageMsg frame_id h w data) = ok frame ->
  color_frame_of (ImageMsg frame_id' h w (tobytes frame)) =
  ok (mkArray [h; w; 3] data).
Proof.
  rewrite !color_frame_of_image.
  destruct (N.eqb_spec (N.of_nat (length data)) (h * w * 3)) as [E | E];
    [| discriminate].
  destruct (h * w * 3 =? 0) eqn:Z; [discriminate |].
  intros H. injection H as <-. unfold tobytes. cbn [flat].
  rewrite (swap_rb_same_length h w data E), E, N.eqb_refl.
  rewrite (swap_rb_involutive (N.to_nat (h * w))) by lia. reflexivity.
Qed.

Lemma color_frame_round_trip_witness :
  color_frame_of rgb_1x2 = ok bgr_1x2 /\
  color_frame_of (ImageMsg "again" 1 2 (tobytes bgr_1x2)) =
  ok (mkArray [1; 2; 3] [x0a; x14; x1e; x0a; x14; x1e]).
Proof.
  assert (H : color_frame_of rgb_1x2 = ok bgr_1x2) by reflexivity.
  split; [exact H |].
  exact (color_frame_round_trip "camera_color" "again" 1 2 _ _ H).
Defined.

(** ** Frames and their bytes *)

Lemma flat_map_length_const {A B} (f : A -> list B) (k : nat) (l : list A) :
  (forall a, length (f a) = k) ->
  length (flat_map f l) = (k * length l)%nat.
Proof.
  intros Hf. induction l as [| a l IH]; simpl; [lia |].
  rewrite length_app, Hf, IH. lia.
Qed.

Lemma bgr_bytes_length (p : byte * byte * byte) : length (bgr_bytes p) = 3%nat.
Proof. destruct p as [[b g] r]. reflexivity. Qed.

Lemma color_frame_bytes (m : message) (f : ndarray byte) :
  color_frame_of m = ok f ->
  exists h w,
    declares h w m /\ shape f = [h; w; 3] /\
    tobytes f = swap_rb (msg_pixels m) /\
    N.of_nat (length (msg_pixels m)) = h * w * 3 /\
    N.of_nat (length (tobytes f)) = h * w * 3.
Proof.
  intros H. apply color_frame_of_ok in H.
  destruct H as (frame_id & h & w & data & -> & Hlen & ->).
  exists h, w. unfold tobytes. cbn [flat shape msg_pixels declares].
  rewrite (swap_rb_same_length h w data Hlen). auto.
Qed.

Lemma depth_frame_bytes fma turbo (m : message) (f : ndarray byte) :
  depth_frame_of fma turbo m = ok f ->
  exists h w values,
    declares h w m /\ shape f = [h; w; 3] /\
    N.of_nat (length values) = h * w /\
    Forall (fun v => (0 <= v <= 255)%Z) values /\
    tobytes f = flat_map (fun v => bgr_bytes (turbo v)) values /\
    N.of_nat (length (tobytes f)) = h * w * 3.
Proof.
  destruct m as [frame_id h w data | |]; try discriminate.
  rewrite depth_frame_of_image.
  destruct (uint16_samples data) as [l |]; [| discriminate].
  destruct (N.eqb_spec (N.of_nat (length l)) (h * w)) as [E | E]; [| discriminate].
  destruct (h * w =? 0); [discriminate |].
  intros H. injection H as <-.
  exists h, w, (mapi (fun i v => normalize_value (fma [h; w] i) (list_min l) (list_max l) v) l).
  unfold tobytes. cbn [flat shape declares].
  rewrite (flat_map_length_const _ 3) by (intros; apply bgr_bytes_length).
  rewrite mapi_length. repeat split; try lia.
  apply Forall_forall. intros v Hv. apply mapi_In in Hv.
  destruct Hv as (i & x & _ & ->). apply normalize_value_range.
Qed.

(** X6.  Every frame an extractor returns has shape [rows, columns, 3] for
    the rows and columns its message declares and holds exactly
    [rows * columns * 3] bytes, so that many bytes per frame reach the
    encoder. *)
Theorem extracted_frames_hold_their_pixels fma turbo (reader : recording) :
  (forall frames fps fw fh,
      extract_color_frames reader = ok (frames, fps, fw, fh) ->
      Forall (fun f => wf_array f /\
                       exists h w, shape f = [h; w; 3] /\
                                   N.of_nat (length (tobytes f)) = h * w * 3)
        frames) /\
  (forall frames,
      extract_depth_frames fma turbo reader = ok frames ->
      Forall (fun f => wf_array f /\
                       exists h w, shape f = [h; w; 3] /\
                                   N.of_nat (length (tobytes f)) = h * w * 3)
        frames).
Proof.
  assert (Hwf : forall (f : ndarray byte) h w,
             shape f = [h; w; 3] ->
             N.of_nat (length (tobytes f)) = h * w * 3 ->
             wf_array f /\
             exists h w, shape f = [h; w; 3] /\
                         N.of_nat (length (tobytes f)) = h * w * 3).
  { intros f h w Hs Hl. split; [| eauto].
    unfold wf_array. unfold tobytes in Hl. rewrite Hl, Hs. simpl. lia. }
  split.
  - intros frames fps fw fh H. apply extract_color_frames_iff in H.
    destruct H as (Hall & _).
    induction Hall as [| cm f msgs fs Hf _ IH]; constructor; [| exact IH].
    apply color_frame_bytes in Hf. destruct Hf as (h & w & _ & Hs & _ & _ & Hl).
    exact (Hwf f h w Hs Hl).
  - intros frames H. apply extract_depth_frames_iff in H.
    induction H as [| cm f msgs fs Hf _ IH]; constructor; [| exact IH].
    apply depth_frame_bytes in Hf.
    destruct Hf as (h & w & values & _ & Hs & _ & _ & _ & Hl).
    exact (Hwf f h w Hs Hl).
Qed.

Lemma extracted_frames_hold_their_pixels_witness :
  extract_color_frames rec_resized = ok ([bgr_1x1; bgr_1x2], 30, Some 1, Some 1) /\
  Forall (fun f => wf_array f /\
                   exists h w, shape f = [h; w; 3] /\
                               N.of_nat (length (tobytes f)) = h * w * 3)
    [bgr_1x1; bgr_1x2].
Proof.
  assert (H : extract_color_frames rec_resized =
              ok ([bgr_1x1; bgr_1x2], 30, Some 1, Some 1)) by reflexivity.
  split; [exact H |].
  exact (proj1 (extracted_frames_hold_their_pixels sample_fma sample_colormap rec_resized)
           _ _ _ _ H).
Defined.

Lemma depth_normalized_of_image fma (frame_id : string) (h w : N) (data : list byte) :
  depth_normalized_of fma (ImageMsg frame_id h w data) =
  match uint16_samples data with
  | None => raise (ValueError Frombuffer)
  | Some l =>
      if N.of_nat (length l) =? h * w
      then if h * w =? 0
           then raise CvError
           else ok (mkArray [h; w]
                      (mapi (fun i v => normalize_value (fma [h; w] i) (list_min l) (list_max l) v) l))
      else raise (ValueError Reshape)
  end.
Proof.
  assert (Hsize : size_of [h; w] = h * w) by (simpl; lia).
  unfold depth_normalized_of, depth_samples_of, frombuffer_uint16.
  cbn [msg_data msg_height msg_width rbind ok].
  destruct (uint16_samples data) as [l |]; [| reflexivity].
  unfold reshape. cbn [rbind ok flat]. rewrite Hsize.
  destruct (N.of_nat (length l) =? h * w); [| reflexivity].
  unfold normalize_minmax. cbn [rbind ok shape flat]. rewrite Hsize.
  destruct (h * w =? 0); reflexivity.
Qed.

(** ** Decoding the 16-bit samples *)

Lemma uint16_samples_nth_aux (n : nat) : forall (data : list byte) (l : list Z),
  (length data <= n)%nat ->
  uint16_samples data = Some l ->
  forall i v,
    nth_error l i = Some v ->
    exists lo hi,
      nth_error data (2 * i) = Some lo /\
      nth_error data (2 * i + 1) = Some hi /\
      v = (Z.of_N (Byte.to_N lo) + 256 * Z.of_N (Byte.to_N hi))%Z.
Proof.
  induction n as [| n IH]; intros data l Hn Hdec i v Hi.
  - destruct data; [| simpl in Hn; lia]. injection Hdec as <-.
    destruct i; discriminate.
  - destruct data as [| lo [| hi rest]].
    + injection Hdec as <-. destruct i; discriminate.
    + discriminate.
    + cbn [uint16_samples] in Hdec.
      destruct (uint16_samples rest) as [l' |] eqn:E; [| discriminate].
      injection Hdec as <-. destruct i as [| i].
      * injection Hi as <-. exists lo, hi. repeat split.
      * simpl in Hn. simpl in Hi.
        destruct (IH rest l' ltac:(lia) E i v Hi) as (lo' & hi' & H0 & H1 & Hv).
        exists lo', hi'.
        replace (2 * S i)%nat with (S (S (2 * i))) by lia.
        split; [exact H0 |]. split; [exact H1 | exact Hv].
Qed.

Lemma byte_value_range (b : byte) : (0 <= Z.of_N (Byte.to_N b) <= 255)%Z.
Proof. pose proof (Byte.to_N_bounded b). lia. Qed.

(** X8.  The depth buffer is read as little-endian 16-bit samples: decoding
    succeeds exactly when the number of bytes is even; it then yields half
    as many samples as bytes, sample [i] being byte [2i] plus 256 times byte
    [2i+1], a value between 0 and 65535. *)
Theorem uint16_samples_spec (data : list byte) :
  (uint16_samples data = None <-> Nat.odd (length data) = true) /\
  (forall l,
      uint16_samples data = Some l ->
      length data = (2 * length l)%nat /\
      Forall (fun v => (0 <= v <= 65535)%Z) l /\
      forall i v,
        nth_error l i = Some v ->
        exists lo hi,
          nth_error data (2 * i) = Some lo /\
          nth_error data (2 * i + 1) = Some hi /\
          v = (Z.of_N (Byte.to_N lo) + 256 * Z.of_N (Byte.to_N hi))%Z).
Proof.
  pose proof (uint16_samples_length data) as Hlen.
  split.
  - destruct (uint16_samples data) as [l |].
    + split; [discriminate |]. intros Hodd. apply Nat.odd_spec in Hodd.
      destruct Hodd as [k Hk]. lia.
    + split; [| reflexivity]. intros _. apply Nat.odd_spec.
      destruct Hlen as [k Hk]. exists k. exact Hk.
  - intros l Hdec. rewrite Hdec in Hlen. split; [exact Hlen |].
    pose proof (uint16_samples_nth_aux (length data) data l (le_n _) Hdec) as Hnth.
    split; [| exact Hnth].
    apply Forall_forall. intros v Hv. apply In_nth_error in Hv.
    destruct Hv as [i Hi]. destruct (Hnth i v Hi) as (lo & hi & _ & _ & ->).
    pose proof (byte_value_range lo). pose proof (byte_value_range hi). lia.
Qed.

Lemma uint16_samples_spec_witness :
  uint16_samples [x00; x00; xe8; x03] = Some [0%Z; 1000%Z] /\
  length [x00; x00; xe8; x03] = (2 * length [0%Z; 1000%Z])%nat /\
  Forall (fun v => (0 <= v <= 65535)%Z) [0%Z; 1000%Z] /\
  uint16_samples [x00; x00; xe8] = None.
Proof.
  assert (H : uint16_samples [x00; x00; xe8; x03] = Some [0%Z; 1000%Z])
    by reflexivity.
  destruct (uint16_samples_spec [x00; x00; xe8; x03]) as [_ Hsome].
  destruct (Hsome _ H) as (Hlen & Hrange & _).
  destruct (uint16_samples_spec [x00; x00; xe8]) as [Hnone _].
  split; [exact H |]. split; [exact Hlen |]. split; [exact Hrange |].
  apply Hnone. reflexivity.
Defined.

(** ** More on the normalization *)

Lemma uniform_min_max (l : list Z) (v : Z) :
  l <> [] -> (forall x, In x l -> x = v) -> list_min l = v /\ list_max l = v.
Proof.
  intros Hne Hall.
  destruct (list_min_spec l Hne) as [Hmin _].
  destruct (list_max_spec l Hne) as [Hmax _].
  split; apply Hall; assumption.
Qed.

(** X9.  A depth image whose samples are all equal is normalized to zeros
    everywhere, so its frame shows the first entry of the colour table at
    every pixel. *)
Theorem flat_depth_image_is_uniform fma turbo (frame_id : string) (h w : N)
    (data : list byte) (samples : list Z) (v : Z) :
  uint16_samples data = Some samples ->
  N.of_nat (length samples) = h * w ->
  0 < h * w ->
  (forall x, In x samples -> x = v) ->
  depth_normalized_of fma (ImageMsg frame_id h w data) =
    ok (mkArray [h; w] (map (fun _ => 0%Z) samples)) /\
  depth_frame_of fma turbo (ImageMsg frame_id h w data) =
    ok (mkArray [h; w; 3] (flat_map (fun _ => bgr_bytes (turbo 0%Z)) samples)).
Proof.
  intros Hdec Hlen Hpix Hall.
  assert (Hne : samples <> []).
  { intros ->. simpl in Hlen. lia. }
  destruct (uniform_min_max samples v Hne Hall) as [Hmin Hmax].
  assert (Hzero : mapi (fun i x => normalize_value (fma [h; w] i) (list_min samples)
                                     (list_max samples) x) samples =
                  map (fun _ => 0%Z) samples).
  { unfold mapi. rewrite <- (mapi_from_const (fun _ => 0%Z) samples 0).
    apply mapi_from_ext. intros i x _. unfold normalize_value. rewrite Hmin, Hmax.
    replace (v - v)%Z with 0%Z by lia. reflexivity. }
  rewrite depth_normalized_of_image, depth_frame_of_image, Hdec, Hlen, N.eqb_refl.
  destruct (N.eqb_spec (h * w) 0); [lia |].
  rewrite Hzero. split; [reflexivity |].
  do 2 f_equal. clear. induction samples as [| x l IH]; [reflexivity |].
  simpl. rewrite IH. reflexivity.
Qed.

Lemma flat_depth_image_is_uniform_witness :
  uint16_samples [xf4; x01; xf4; x01] = Some [500%Z; 500%Z] /\
  depth_normalized_of sample_fma depth_flat_1x2 = ok (mkArray [1; 2] [0%Z; 0%Z]) /\
  depth_frame_of sample_fma sample_colormap depth_flat_1x2 =
    ok (mkArray [1; 2; 3] [x3b; x12; x30; x3b; x12; x30]).
Proof.
  assert (Hall : forall x, In x [500%Z; 500%Z] -> x = 500%Z).
  { intros x [<- | [<- | []]]; reflexivity. }
  split; [reflexivity |].
  exact (flat_depth_image_is_uniform sample_fma sample_colormap "camera_depth" 1 2
           [xf4; x01; xf4; x01] [500%Z; 500%Z] 500%Z eq_refl eq_refl eq_refl Hall).
Defined.

(** ** From the recording to the encoder's input *)

Lemma color_frames_bytes (msgs : list (connection * message))
    (frames : list (ndarray byte)) :
  Forall2 (fun cm f => color_frame_of (snd cm) = ok f) msgs frames ->
  map tobytes frames = map (fun cm => swap_rb (msg_pixels (snd cm))) msgs /\
  length (concat (map tobytes frames)) =
  length (concat (map (fun cm => msg_pixels (snd cm)) msgs)).
Proof.
  induction 1 as [| cm f msgs frames Hf _ [IHm IHl]]; [split; reflexivity |].
  apply color_frame_bytes in Hf.
  destruct Hf as (h & w & _ & _ & Hb & Hp & Hl).
  cbn [map concat]. rewrite !length_app, IHl, IHm, Hb. split; [reflexivity |].
  rewrite <- Hb. lia.
Qed.

(** X12.  What the colour encoder reads is the recording's colour pixels:
    called on the frames of the colour extractor, with a process that
    starts and reads its input, the encoder writes the
    pixel buffers of the colour messages in stored order, each with bytes 0
    and 2 of every pixel exchanged, no byte added or dropped; when all the
    messages declare the reported height and width this is
    [messages * width * height * 3] bytes. *)
Theorem color_video_stream ffmpeg (reader : recording)
    (frames : list (ndarray byte)) (fps w h : N) (output_path : string)
    (ec : bool) :
  extract_color_frames reader = ok (frames, fps, Some w, Some h) ->
  reads_all (ffmpeg (build_cmd output_path fps w h ec) (concat (map tobytes frames))) ->
  let msgs := reader_messages reader (connections_on COLOR_TOPIC reader) in
  let t := fst (create_video ffmpeg frames output_path fps w h ec) in
  frames <> [] /\
  stdin_bytes t = concat (map (fun cm => swap_rb (msg_pixels (snd cm))) msgs) /\
  length (stdin_bytes t) = length (concat (map (fun cm => msg_pixels (snd cm)) msgs)) /\
  (Forall (fun cm => declares h w (snd cm)) msgs ->
   N.of_nat (length (stdin_bytes t)) = N.of_nat (length msgs) * w * h * 3).
Proof.
  intros H Hp msgs t. apply extract_color_frames_iff in H.
  destruct H as (Hall & _ & Hdims). fold msgs in Hall.
  destruct (color_frames_bytes msgs frames Hall) as [Hmap Hlen].
  unfold t. rewrite create_video_stdin by (intros _; exact Hp).
  split; [intros ->; discriminate Hdims |].
  split; [rewrite Hmap; reflexivity |]. split; [exact Hlen |].
  intros Hsame. rewrite Hlen. clear - Hall Hsame.
  induction Hall as [| [c m] f msgs frames Hf _ IH]; [reflexivity |].
  inversion Hsame as [| ? ? Hcm Hrest]; subst.
  apply color_frame_bytes in Hf. destruct Hf as (h' & w' & Hd & _ & _ & Hp & _).
  cbn [snd] in *.
  destruct m as [frame_id h0 w0 data | |]; try contradiction.
  cbn [declares msg_pixels] in Hd, Hcm, Hp.
  destruct Hd as [<- <-]. destruct Hcm as [<- <-].
  cbn [map concat msg_pixels snd].
  rewrite length_app, Nat2N.inj_add, (IH Hrest), Hp.
  change (length ((c, ImageMsg frame_id h0 w0 data) :: msgs)) with (S (length msgs)).
  lia.
Qed.

Lemma color_video_stream_witness :
  extract_color_frames rec_resized = ok ([bgr_1x1; bgr_1x2], 30, Some 1, Some 1) /\
  stdin_bytes (fst (create_video ffmpeg_succeeds [bgr_1x1; bgr_1x2]
                      "output/color_video.mp4" 30 1 1 false)) =
  [x1e; x14; x0a; x1e; x14; x0a; x1e; x14; x0a] /\
  extract_color_frames rec_headerless = ok ([bgr_1x1; bgr_1x1], 30, Some 1, Some 1) /\
  N.of_nat (length (stdin_bytes (fst (create_video ffmpeg_succeeds [bgr_1x1; bgr_1x1]
                                        "output/color_video.mp4" 30 1 1 false)))) =
  2 * 1 * 1 * 3.
Proof.
  assert (H : extract_color_frames rec_resized =
              ok ([bgr_1x1; bgr_1x2], 30, Some 1, Some 1)) by reflexivity.
  assert (H' : extract_color_frames rec_headerless =
               ok ([bgr_1x1; bgr_1x1], 30, Some 1, Some 1)) by reflexivity.
  destruct (color_video_stream ffmpeg_succeeds rec_resized _ _ _ _
              "output/color_video.mp4" false H (conj eq_refl eq_refl))
    as (_ & Hbytes & _ & _).
  destruct (color_video_stream ffmpeg_succeeds rec_headerless _ _ _ _
              "output/color_video.mp4" false H' (conj eq_refl eq_refl))
    as (_ & _ & _ & Hcount).
  split; [exact H |]. split; [rewrite Hbytes; reflexivity |].
  split; [exact H' |]. apply Hcount. repeat constructor.
Defined.

(** ** The driver, case by case *)

Lemma stdin_bytes_bind {A B} (m : io A) (k : A -> io B) :
  stdin_bytes (fst (io_bind m k)) =
  stdin_bytes (fst m) ++
  match snd m with
  | inl _ => []
  | inr a => stdin_bytes (fst (k a))
  end.
Proof.
  unfold io_bind. destruct (snd m); simpl.
  - rewrite app_nil_r. reflexivity.
  - apply stdin_bytes_app.
Qed.

Lemma imu_loop_no_stdin (msgs : list (connection * message)) :
  stdin_bytes (fst (imu_loop msgs)) = [].
Proof.
  induction msgs as [| [c m] rest IH]; [reflexivity |].
  cbn [imu_loop]. rewrite stdin_bytes_bind. unfold lift. cbn [fst snd].
  destruct (msg_frame_id m); [reflexivity |].
  rewrite stdin_bytes_bind. cbn [emit fst snd]. exact IH.
Qed.

Lemma snd_io_bind {A B} (m : io A) (k : A -> io B) :
  snd (io_bind m k) =
  match snd m with
  | inl e => inl e
  | inr a => snd (k a)
  end.
Proof. unfold io_bind. destruct (snd m); reflexivity. Qed.

(** The run of [main], by the outcome of the three extractors. *)
Lemma main_unfold ffmpeg fma turbo (reader : recording) :
  main ffmpeg fma turbo reader =
  let imu := fst (extract_imu_data reader) in
  let head := fun rest =>
    EvMkdir OUTPUT_DIR :: EvPrint "Extracting IMU data..." :: imu ++ rest in
  match snd (extract_imu_data reader) with
  | inl e => (head [], inl e)
  | inr _ =>
      match extract_color_frames reader with
      | inl e => (head [EvPrint "Extracting color frames..."], inl e)
      | inr (color_frames, fps, width, height) =>
          match extract_depth_frames fma turbo reader with
          | inl e =>
              (head [EvPrint "Extracting color frames...";
                     EvPrint "Extracting depth frames..."], inl e)
          | inr depth_frames =>
              match width, height with
              | Some w, Some h =>
                  (head (EvPrint "Extracting color frames..." ::
                         EvPrint "Extracting depth frames..." ::
                         fst (encode_videos ffmpeg color_frames depth_frames fps w h)),
                   snd (encode_videos ffmpeg color_frames depth_frames fps w h))
              | _, _ =>
                  (head [EvPrint "Extracting color frames...";
                         EvPrint "Extracting depth frames...";
                         EvPrint "Error: Could not determine frame size."],
                   ok tt)
              end
          end
      end
  end.
Proof.
  unfold main.
  destruct (extract_imu_data reader) as [t [e | []]].
  { cbn. rewrite app_nil_r. reflexivity. }
  destruct (extract_color_frames reader) as [e | [[[cf fps] fw] fh]]; [reflexivity |].
  destruct (extract_depth_frames fma turbo reader) as [e | df]; [reflexivity |].
  destruct fw as [w |]; [| reflexivity].
  destruct fh as [h |]; [| reflexivity].
  change (OUTPUT_DIR ++ "/color_video.mp4")%string with "output/color_video.mp4".
  change (OUTPUT_DIR ++ "/depth_video.mp4")%string with "output/depth_video.mp4".
  change ENABLE_COMPRESSION with false.
  unfold encode_videos.
  cbv beta iota delta [io_bind lift emit io_ret].
  destruct cf as [| c0 cf], df as [| d0 df]; cbn [nonempty fst snd];
    repeat match goal with
           | |- context [create_video ?a ?b ?c ?d ?e ?f ?g] =>
               destruct (create_video a b c d e f g) as [? [? | []]]
           end;
    cbn; rewrite ?app_nil_r; reflexivity.
Qed.

Lemma extract_imu_data_quiet (reader : recording) :
  popen_cmds (fst (extract_imu_data reader)) = [] /\
  stdin_bytes (fst (extract_imu_data reader)) = [].
Proof.
  split; [apply imu_loop_no_popen | apply imu_loop_no_stdin].
Qed.

Lemma head_quiet (reader : recording) (rest : list event) :
  popen_cmds (EvMkdir OUTPUT_DIR :: EvPrint "Extracting IMU data..." ::
                fst (extract_imu_data reader) ++ rest) = popen_cmds rest /\
  stdin_bytes (EvMkdir OUTPUT_DIR :: EvPrint "Extracting IMU data..." ::
                 fst (extract_imu_data reader) ++ rest) = stdin_bytes rest.
Proof.
  destruct (extract_imu_data_quiet reader) as [Hp Hs]. split.
  - change (popen_cmds (?a :: ?b :: ?l)) with (popen_cmds l).
    rewrite popen_cmds_app, Hp. reflexivity.
  - change (stdin_bytes (?a :: ?b :: ?l)) with (stdin_bytes l).
    rewrite stdin_bytes_app, Hs. reflexivity.
Qed.

(** The encoder is silent on no frame, and calls [Popen] otherwise. *)
Lemma encode_videos_popen ffmpeg (cf df : list (ndarray byte)) (fps w h : N) :
  popen_cmds (fst (encode_videos ffmpeg cf df fps w h)) =
  (if nonempty cf then [build_cmd "output/color_video.mp4" fps w h false] else []) ++
  match snd (if nonempty cf
             then create_video ffmpeg cf "output/color_video.mp4" fps w h false
             else io_ret tt) with
  | inl _ => []
  | inr _ =>
      if nonempty df then [build_cmd "output/depth_video.mp4" fps w h false] else []
  end.
Proof.
  unfold encode_videos. rewrite popen_cmds_bind. f_equal.
  - destruct cf as [| f fs]; [reflexivity |]. cbn [nonempty].
    rewrite create_video_popen. reflexivity.
  - destruct (snd _); [reflexivity |].
    destruct df as [| f fs]; [reflexivity |]. cbn [nonempty].
    rewrite create_video_popen. reflexivity.
Qed.



(** X14.  When the three extractors return and there is a colour frame, the
    driver calls the encoder for the colour video and then, if that call
    returns and there is a depth frame, for the depth video, and nothing
    else: both commands carry the colour resolution, frame rate 30 and the
    lossless profile.  An exception of the colour call ends the run, with
    that exception and without a call for the depth video; after a colour
    call that returns, the run ends as the depth call does.  When both
    processes start, read their input and leave text that decodes, the run
    returns normally and the bytes written are the colour frames' followed
    by the depth frames'. *)
Theorem main_encodes_color_then_depth ffmpeg fma turbo (reader : recording)
    (color_frames depth_frames : list (ndarray byte)) (fps w h : N) :
  snd (extract_imu_data reader) = ok tt ->
  extract_color_frames reader = ok (color_frames, fps, Some w, Some h) ->
  extract_depth_frames fma turbo reader = ok depth_frames ->
  let color_cmd := build_cmd "output/color_video.mp4" 30 w h false in
  let depth_cmd := build_cmd "output/depth_video.mp4" 30 w h false in
  let color_video :=
    create_video ffmpeg color_frames "output/color_video.mp4" 30 w h false in
  let depth_video :=
    create_video ffmpeg depth_frames "output/depth_video.mp4" 30 w h false in
  let color_process := ffmpeg color_cmd (concat (map tobytes color_frames)) in
  let depth_process := ffmpeg depth_cmd (concat (map tobytes depth_frames)) in
  let run := main ffmpeg fma turbo reader in
  (forall e,
      snd color_video = raise e ->
      snd run = raise e /\ popen_cmds (fst run) = [color_cmd]) /\
  (snd color_video = ok tt ->
   popen_cmds (fst run) =
     color_cmd :: (if nonempty depth_frames then [depth_cmd] else []) /\
   snd run = if nonempty depth_frames then snd depth_video else ok tt) /\
  (reads_all color_process ->
   (exists text, stderr_text color_process = Some text) ->
   (depth_frames <> [] ->
    reads_all depth_process /\ exists text, stderr_text depth_process = Some text) ->
   snd run = ok tt /\
   popen_cmds (fst run) =
     color_cmd :: (if nonempty depth_frames then [depth_cmd] else []) /\
   stdin_bytes (fst run) =
     concat (map tobytes color_frames) ++ concat (map tobytes depth_frames)).
Proof.
  intros Himu Hcolor Hdepth color_cmd depth_cmd color_video depth_video
    color_process depth_process run.
  pose proof Hcolor as Hc. apply extract_color_frames_iff in Hc.
  destruct Hc as (_ & -> & Hdims).
  assert (Hne : nonempty color_frames = true).
  { destruct color_frames; [discriminate Hdims | reflexivity]. }
  assert (Hcne : color_frames <> []).
  { intros ->. discriminate Hne. }
  assert (Hrun : run =
                 (EvMkdir OUTPUT_DIR :: EvPrint "Extracting IMU data..." ::
                    fst (extract_imu_data reader) ++
                    EvPrint "Extracting color frames..." ::
                    EvPrint "Extracting depth frames..." ::
                    fst (encode_videos ffmpeg color_frames depth_frames 30 w h),
                  snd (encode_videos ffmpeg color_frames depth_frames 30 w h))).
  { unfold run. rewrite main_unfold. cbv zeta. rewrite Himu, Hcolor, Hdepth.
    reflexivity. }
  assert (Hpopen : popen_cmds (fst run) =
                   color_cmd ::
                   match snd color_video with
                   | inl _ => []
                   | inr _ => if nonempty depth_frames then [depth_cmd] else []
                   end).
  { rewrite Hrun. cbn [fst]. rewrite (proj1 (head_quiet reader _)).
    change (popen_cmds (?a :: ?b :: ?l)) with (popen_cmds l).
    rewrite encode_videos_popen, Hne. reflexivity. }
  assert (Hsnd : snd run =
                 match snd color_video with
                 | inl e => inl e
                 | inr _ => if nonempty depth_frames then snd depth_video else ok tt
                 end).
  { rewrite Hrun. cbn [snd]. unfold encode_videos. rewrite snd_io_bind, Hne.
    fold color_video. destruct (snd color_video); [reflexivity |].
    destruct depth_frames; reflexivity. }
  assert (Hstdin : stdin_bytes (fst run) =
                   stdin_bytes (fst color_video) ++
                   match snd color_video with
                   | inl _ => []
                   | inr _ => stdin_bytes (fst depth_video)
                   end).
  { rewrite Hrun. cbn [fst]. rewrite (proj2 (head_quiet reader _)).
    change (stdin_bytes (?a :: ?b :: ?l)) with (stdin_bytes l).
    unfold encode_videos. rewrite stdin_bytes_bind, Hne. fold color_video.
    f_equal. destruct (snd color_video); [reflexivity |].
    destruct depth_frames; reflexivity. }
  split; [| split].
  - intros e He. rewrite Hsnd, Hpopen, He. split; reflexivity.
  - intros Hok. rewrite Hsnd, Hpopen, Hok. split; reflexivity.
  - intros Hcp [tc Htc] Hdp.
    assert (Hcv : snd color_video = ok tt).
    { unfold color_video.
      rewrite (create_video_run ffmpeg color_frames "output/color_video.mp4" 30 w h
                 false tc Hcne Hcp Htc). reflexivity. }
    assert (Hdv : nonempty depth_frames = true -> snd depth_video = ok tt).
    { intros Hd. assert (Hdne : depth_frames <> []) by (intros ->; discriminate Hd).
      destruct (Hdp Hdne) as [Hr [td Htd]]. unfold depth_video.
      rewrite (create_video_run ffmpeg depth_frames "output/depth_video.mp4" 30 w h
                 false td Hdne Hr Htd). reflexivity. }
    rewrite Hsnd, Hpopen, Hstdin, Hcv. split; [| split].
    + destruct (nonempty depth_frames); [apply Hdv |]; reflexivity.
    + reflexivity.
    + unfold color_video, depth_video.
      rewrite !create_video_stdin; [reflexivity | |].
      * intros Hdne. apply (Hdp Hdne).
      * intros _. exact Hcp.
Qed.

Lemma main_encodes_color_then_depth_witness :
  snd (extract_imu_data rec_with_imu) = ok tt /\
  extract_color_frames rec_with_imu = ok ([bgr_1x1], 30, Some 1, Some 1) /\
  extract_depth_frames sample_fma sample_colormap rec_with_imu = ok [depth_colored_1x2] /\
  popen_cmds (fst (main ffmpeg_succeeds sample_fma sample_colormap rec_with_imu)) =
    [build_cmd "output/color_video.mp4" 30 1 1 false;
     build_cmd "output/depth_video.mp4" 30 1 1 false] /\
  stdin_bytes (fst (main ffmpeg_succeeds sample_fma sample_colormap rec_with_imu)) =
    [x1e; x14; x0a; x3b; x12; x30; x03; x04; x7a] /\
  snd (main ffmpeg_exits_early sample_fma sample_colormap rec_with_imu) =
    raise BrokenPipeError /\
  popen_cmds (fst (main ffmpeg_exits_early sample_fma sample_colormap rec_with_imu)) =
    [build_cmd "output/color_video.mp4" 30 1 1 false].
Proof.
  destruct (main_encodes_color_then_depth ffmpeg_succeeds sample_fma sample_colormap
              rec_with_imu [bgr_1x1] [depth_colored_1x2] 30 1 1
              eq_refl eq_refl eq_refl) as (_ & _ & Hnormal).
  destruct (main_encodes_color_then_depth ffmpeg_exits_early sample_fma sample_colormap
              rec_with_imu [bgr_1x1] [depth_colored_1x2] 30 1 1
              eq_refl eq_refl eq_refl) as (Hraise & _ & _).
  destruct Hnormal as (_ & Hp & Hs).
  { split; reflexivity. }
  { exists "". reflexivity. }
  { intros _. split; [split; reflexivity | exists ""; reflexivity]. }
  destruct (Hraise BrokenPipeError eq_refl) as [Hret Hone].
  split; [reflexivity |]. split; [reflexivity |]. split; [reflexivity |].
  split; [exact Hp |]. split; [exact Hs |]. split; [exact Hret | exact Hone].
Defined.

Lemma main_aborts_without_color_messages_witness :
  connections_on COLOR_TOPIC rec_no_color_message <> [] /\
  Forall (fun cm => topic (fst cm) <> COLOR_TOPIC) (stored rec_no_color_message) /\
  extract_depth_frames sample_fma sample_colormap rec_no_color_message = ok [depth_colored_1x2] /\
  popen_cmds (fst (main ffmpeg_succeeds sample_fma sample_colormap rec_no_color_message)) = [].
Proof.
  assert (Hc : connections_on COLOR_TOPIC rec_no_color_message <> [])
    by discriminate.
  assert (Hm : Forall (fun cm => topic (fst cm) <> COLOR_TOPIC)
                 (stored rec_no_color_message)).
  { repeat constructor. discriminate. }
  split; [exact Hc |]. split; [exact Hm |]. split; [reflexivity |].
  exact (proj1 (main_aborts_without_color_messages ffmpeg_succeeds sample_fma sample_colormap
                  rec_no_color_message Hc Hm)).
Defined.

(** ** Which messages an extractor reads *)

Lemma reader_messages_on_topic (t : string) (reader : recording) :
  connections_on t reader <> [] ->
  reader_messages reader (connections_on t reader) =
  filter (fun cm => String.eqb (topic (fst cm)) t) (stored reader).
Proof.
  intros Hcs. unfold reader_messages.
  destruct (connections_on t reader) as [| c0 cs] eqn:E; [contradiction |].
  assert (Htopic : forall c, In c (c0 :: cs) -> topic c = t).
  { intros c Hc. rewrite <- E in Hc. unfold connections_on in Hc.
    apply filter_In in Hc. destruct Hc as [_ Hc]. apply String.eqb_eq. exact Hc. }
  apply filter_ext. intros cm. unfold on_topics.
  cbn [existsb]. rewrite (Htopic c0 (or_introl eq_refl)).
  rewrite (String.eqb_sym (topic (fst cm)) t).
  destruct (String.eqb t (topic (fst cm))) eqn:Ht; [reflexivity |].
  cbn [orb]. apply not_true_is_false. intros Hex.
  apply existsb_exists in Hex. destruct Hex as (c & Hc & Heq).
  rewrite (Htopic c (or_intror Hc)), Ht in Heq. discriminate.
Qed.

(** X15.  With a connection on its topic, an extractor reads the messages
    stored on that topic and no others, in stored order: two recordings
    that both have a colour connection and hold the same colour-topic
    messages give the same colour result, and likewise for depth, whatever
    else they hold. *)
Theorem extractors_read_their_topic_only fma turbo (r1 r2 : recording) :
  (connections_on COLOR_TOPIC r1 <> [] ->
   connections_on COLOR_TOPIC r2 <> [] ->
   filter (fun cm => String.eqb (topic (fst cm)) COLOR_TOPIC) (stored r1) =
   filter (fun cm => String.eqb (topic (fst cm)) COLOR_TOPIC) (stored r2) ->
   extract_color_frames r1 = extract_color_frames r2) /\
  (connections_on DEPTH_TOPIC r1 <> [] ->
   connections_on DEPTH_TOPIC r2 <> [] ->
   filter (fun cm => String.eqb (topic (fst cm)) DEPTH_TOPIC) (stored r1) =
   filter (fun cm => String.eqb (topic (fst cm)) DEPTH_TOPIC) (stored r2) ->
   extract_depth_frames fma turbo r1 = extract_depth_frames fma turbo r2).
Proof.
  split; intros H1 H2 Hsame.
  - unfold extract_color_frames.
    rewrite !reader_messages_on_topic by assumption. rewrite Hsame. reflexivity.
  - unfold extract_depth_frames.
    rewrite !reader_messages_on_topic by assumption. rewrite Hsame. reflexivity.
Qed.

Lemma extractors_read_their_topic_only_witness :
  connections_on COLOR_TOPIC rec_with_imu <> [] /\
  connections_on COLOR_TOPIC rec_two_resolutions <> [] /\
  extract_color_frames rec_with_imu = extract_color_frames rec_two_resolutions.
Proof.
  assert (H1 : connections_on COLOR_TOPIC rec_with_imu <> []) by discriminate.
  assert (H2 : connections_on COLOR_TOPIC rec_two_resolutions <> []) by discriminate.
  split; [exact H1 |]. split; [exact H2 |].
  exact (proj1 (extractors_read_their_topic_only sample_fma sample_colormap rec_with_imu
                  rec_two_resolutions) H1 H2 eq_refl).
Defined.

(** ** The depth stream *)

Lemma depth_frames_bytes fma turbo (h w : N) (msgs : list (connection * message))
    (frames : list (ndarray byte)) :
  Forall2 (fun cm f => depth_frame_of fma turbo (snd cm) = ok f) msgs frames ->
  Forall (fun cm => declares h w (snd cm)) msgs ->
  N.of_nat (length (concat (map tobytes frames))) =
  N.of_nat (length frames) * w * h * 3.
Proof.
  induction 1 as [| [c m] f msgs frames Hf _ IH]; intros Hsame; [reflexivity |].
  inversion Hsame as [| ? ? Hcm Hrest]; subst.
  apply depth_frame_bytes in Hf.
  destruct Hf as (h' & w' & values & Hd & _ & _ & _ & _ & Hl).
  cbn [snd] in *. destruct m as [frame_id h0 w0 data | |]; try contradiction.
  cbn [declares] in Hd, Hcm. destruct Hd as [<- <-]. destruct Hcm as [<- <-].
  cbn [map concat]. rewrite length_app, Nat2N.inj_add, (IH Hrest), Hl.
  change (length (f :: frames)) with (S (length frames)). lia.
Qed.

(** X16.  The bytes the depth encoder reads are counted by the depth
    messages, not by the resolution on its command line: when the depth
    messages all declare one height and width, the encoder, whatever width
    and height it is called with, writes to a process that reads its input
    [frames * depth_width * depth_height * 3] bytes. *)
Theorem depth_video_byte_count ffmpeg fma turbo (reader : recording)
    (frames : list (ndarray byte)) (depth_h depth_w : N)
    (output_path : string) (fps width height : N) (ec : bool) :
  extract_depth_frames fma turbo reader = ok frames ->
  Forall (fun cm => declares depth_h depth_w (snd cm))
    (reader_messages reader (connections_on DEPTH_TOPIC reader)) ->
  (frames <> [] ->
   reads_all (ffmpeg (build_cmd output_path fps width height ec)
                (concat (map tobytes frames)))) ->
  N.of_nat (length (stdin_bytes (fst (create_video ffmpeg frames output_path
                                        fps width height ec)))) =
  N.of_nat (length frames) * depth_w * depth_h * 3.
Proof.
  intros H Hsame Hp. apply extract_depth_frames_iff in H.
  rewrite create_video_stdin by exact Hp. eapply depth_frames_bytes; eassumption.
Qed.

Lemma depth_video_byte_count_witness :
  extract_depth_frames sample_fma sample_colormap rec_two_resolutions = ok [depth_colored_1x2] /\
  N.of_nat (length (stdin_bytes (fst (create_video ffmpeg_succeeds [depth_colored_1x2]
                                        "output/depth_video.mp4" 30 1 1 false)))) =
  1 * 2 * 1 * 3.
Proof.
  assert (H : extract_depth_frames sample_fma sample_colormap rec_two_resolutions =
              ok [depth_colored_1x2]) by reflexivity.
  split; [exact H |].
  apply (depth_video_byte_count ffmpeg_succeeds sample_fma sample_colormap rec_two_resolutions
           [depth_colored_1x2] 1 2 "output/depth_video.mp4" 30 1 1 false H).
  - repeat constructor.
  - intros _. split; reflexivity.
Defined.

(** * The frames of a recording, message by message *)

Lemma Forall_exists_Forall2 {A B} (R : A -> B -> Prop) (l : list A) :
  Forall (fun a => exists b, R a b) l -> exists l', Forall2 R l l'.
Proof.
  induction 1 as [| a l [b Hb] _ [l' IH]]; [exists []; constructor |].
  exists (b :: l'). constructor; assumption.
Qed.

Lemma Forall2_at {A B} (R : A -> B -> Prop) (l : list A) (l' : list B) :
  Forall2 R l l' ->
  forall k a, nth_error l k = Some a -> exists b, nth_error l' k = Some b /\ R a b.
Proof.
  induction 1 as [| a0 b0 l l' Hab _ IH]; intros k a Hk.
  - destruct k; discriminate.
  - destruct k as [| k]; [injection Hk as <-; exists b0; auto |].
    exact (IH k a Hk).
Qed.

Lemma valid_color_image (m : message) :
  valid_color m ->
  exists frame_id h w data,
    m = ImageMsg frame_id h w data /\
    N.of_nat (length data) = h * w * 3 /\ 0 < h * w.
Proof.
  destruct m as [frame_id h w data | |]; try contradiction.
  intros [Hlen Hpix]. eauto 8.
Qed.

(** C1.  On a recording whose colour messages are all valid, the colour
    extractor returns a sequence with one frame for every message, in
    stored order, and the frame of each message has the message's height
    and width and is its pixel array with channels 0 and 2 exchanged at
    every row and column, channel 1 left as it is. *)
Theorem color_frame_swaps_channels (reader : recording) :
  let msgs := reader_messages reader (connections_on COLOR_TOPIC reader) in
  Forall (fun cm => valid_color (snd cm)) msgs ->
  exists frames fw fh,
    extract_color_frames reader = ok (frames, 30, fw, fh) /\
    length frames = length msgs /\
    forall k conn frame_id h w data,
      nth_error msgs k = Some (conn, ImageMsg frame_id h w data) ->
      let source := mkArray [h; w; 3] data in
      exists frame,
        nth_error frames k = Some frame /\
        shape frame = [h; w; 3] /\
        length (flat frame) = length data /\
        forall r c, r < h -> c < w ->
          at3 frame r c 0 = at3 source r c 2 /\
          at3 frame r c 2 = at3 source r c 0 /\
          at3 frame r c 1 = at3 source r c 1 /\
          at3 source r c 0 <> None /\
          at3 source r c 1 <> None /\
          at3 source r c 2 <> None.
Proof.
  intros msgs Hvalid.
  assert (Hconv : Forall (fun cm => exists f, color_frame_of (snd cm) = ok f) msgs).
  { eapply Forall_impl; [| exact Hvalid]. intros [conn m] Hm. cbn [snd] in *.
    apply valid_color_image in Hm.
    destruct Hm as (frame_id & h & w & data & -> & Hlen & Hpix).
    destruct (color_frame_of_swaps frame_id h w data Hlen Hpix) as (f & Hf & _).
    exists f. exact Hf. }
  apply Forall_exists_Forall2 in Hconv. destruct Hconv as [frames Hall].
  exists frames, (fst (first_dims None None frames)), (snd (first_dims None None frames)).
  split.
  { apply extract_color_frames_iff. split; [exact Hall |]. split; [reflexivity |].
    destruct (first_dims None None frames); reflexivity. }
  split; [symmetry; exact (Forall2_length Hall) |].
  intros k conn frame_id h w data Hk source.
  destruct (Forall2_at _ _ _ Hall k _ Hk) as (frame & Hframe & Hf). cbn [snd] in Hf.
  pose proof (proj1 (Forall_forall _ _) Hvalid _ (nth_error_In _ _ Hk)) as Hm.
  cbn [snd valid_color] in Hm. destruct Hm as [Hlen Hpix].
  destruct (color_frame_of_swaps frame_id h w data Hlen Hpix)
    as (frame' & Hf' & Hshape & _ & Hswap).
  rewrite Hf in Hf'. injection Hf' as <-.
  exists frame. split; [exact Hframe |]. split; [exact Hshape |]. split; [| exact Hswap].
  apply color_frame_of_ok in Hf.
  destruct Hf as (fid & h' & w' & data' & E & _ & ->). injection E as _ <- <- <-.
  cbn [flat]. exact (swap_rb_same_length h w data Hlen).
Qed.

Lemma color_frame_swaps_channels_witness :
  Forall (fun cm => valid_color (snd cm))
    (reader_messages rec_resized (connections_on COLOR_TOPIC rec_resized)) /\
  extract_color_frames rec_resized = ok ([bgr_1x1; bgr_1x2], 30, Some 1, Some 1) /\
  exists frame,
    nth_error [bgr_1x1; bgr_1x2] 1 = Some frame /\
    at3 frame 0 1 0 = Some x1e /\
    at3 frame 0 1 1 = Some x14 /\
    at3 frame 0 1 2 = Some x0a.
Proof.
  assert (Hvalid : Forall (fun cm => valid_color (snd cm))
                     (reader_messages rec_resized
                        (connections_on COLOR_TOPIC rec_resized))).
  { repeat constructor. }
  split; [exact Hvalid |].
  destruct (color_frame_swaps_channels rec_resized Hvalid)
    as (frames & fw & fh & Hrun & _ & Hat).
  assert (Hframes : frames = [bgr_1x1; bgr_1x2]).
  { assert (E : extract_color_frames rec_resized =
                ok ([bgr_1x1; bgr_1x2], 30, Some 1, Some 1)) by reflexivity.
    rewrite E in Hrun. injection Hrun as <- _ _. reflexivity. }
  split; [reflexivity |].
  destruct (Hat 1%nat color_conn "camera_color" 1 2 [x0a; x14; x1e; x0a; x14; x1e]
              eq_refl) as (frame & Hk & _ & _ & Hswap).
  rewrite Hframes in Hk.
  destruct (Hswap 0 1 eq_refl eq_refl) as (H0 & H2 & H1 & _).
  exists frame. split; [exact Hk |].
  split; [rewrite H0; reflexivity |]. split; [rewrite H1 | rewrite H2]; reflexivity.
Defined.

Lemma uint16_samples_range (data : list byte) (l : list Z) :
  uint16_samples data = Some l -> Forall (fun v => (0 <= v <= 65535)%Z) l.
Proof.
  intros Hdec. apply Forall_forall. intros v Hv. apply In_nth_error in Hv.
  destruct Hv as [i Hi].
  destruct (uint16_samples_nth_aux (length data) data l (le_n _) Hdec i v Hi)
    as (lo & hi & _ & _ & ->).
  pose proof (byte_value_range lo). pose proof (byte_value_range hi). lia.
Qed.

Lemma depth_samples_of_image (frame_id : string) (h w : N) (data : list byte) :
  depth_samples_of (ImageMsg frame_id h w data) =
  match uint16_samples data with
  | None => raise (ValueError Frombuffer)
  | Some l =>
      if N.of_nat (length l) =? h * w
      then ok (mkArray [h; w] l)
      else raise (ValueError Reshape)
  end.
Proof.
  assert (Hsize : size_of [h; w] = h * w) by (simpl; lia).
  unfold depth_samples_of, frombuffer_uint16.
  cbn [msg_data msg_height msg_width rbind ok].
  destruct (uint16_samples data) as [l |]; [| reflexivity].
  unfold reshape. cbn [rbind ok flat]. rewrite Hsize.
  destruct (N.of_nat (length l) =? h * w); reflexivity.
Qed.

(** What the depth loop makes of a valid message. *)
Lemma valid_depth_image fma turbo (m : message) :
  valid_depth m ->
  exists h w l,
    declares h w m /\
    N.of_nat (length l) = h * w /\ 0 < h * w /\
    Forall (fun v => (0 <= v <= 65535)%Z) l /\
    depth_samples_of m = ok (mkArray [h; w] l) /\
    depth_normalized_of fma m =
      ok (mkArray [h; w]
            (mapi (fun i v => normalize_value (fma [h; w] i) (list_min l) (list_max l) v)
               l)) /\
    depth_frame_of fma turbo m =
      ok (mkArray [h; w; 3]
            (flat_map (fun v => bgr_bytes (turbo v))
               (mapi (fun i v => normalize_value (fma [h; w] i) (list_min l)
                                   (list_max l) v) l))).
Proof.
  destruct m as [frame_id h w data | |]; try contradiction.
  intros [Hlen Hpix].
  rewrite depth_samples_of_image, depth_normalized_of_image, depth_frame_of_image.
  pose proof (uint16_samples_length data) as Hdec.
  pose proof (uint16_samples_range data) as Hrange.
  destruct (uint16_samples data) as [l |]; [| destruct Hdec as [k Hk]; lia].
  assert (Hl : N.of_nat (length l) = h * w) by lia.
  exists h, w, l. rewrite Hl, N.eqb_refl.
  destruct (N.eqb_spec (h * w) 0); [lia |].
  cbn [declares]. repeat split; auto.
Qed.

(** C2.  On a recording whose depth messages are all valid, the depth
    extractor returns one frame for every message, in stored order, the
    colour-mapped normalized image of that message alone.  The normalized
    image has the shape of the samples and values from 0 to 255, and when
    the samples of the message are not all equal, it is 0 wherever the
    sample is the least sample of this message and 255 wherever it is the
    greatest sample of this message, both of which occur. *)
Theorem depth_normalization_per_frame fma turbo (reader : recording) :
  let msgs := reader_messages reader (connections_on DEPTH_TOPIC reader) in
  Forall (fun cm => valid_depth (snd cm)) msgs ->
  exists frames,
    extract_depth_frames fma turbo reader = ok frames /\
    length frames = length msgs /\
    forall k conn msg,
      nth_error msgs k = Some (conn, msg) ->
      exists samples normalized colored,
        depth_samples_of msg = ok samples /\
        depth_normalized_of fma msg = ok normalized /\
        applyColorMap turbo normalized = ok colored /\
        depth_frame_of fma turbo msg = ok colored /\
        nth_error frames k = Some colored /\
        shape normalized = shape samples /\
        length (flat normalized) = length (flat samples) /\
        Forall (fun v => (0 <= v <= 255)%Z) (flat normalized) /\
        let smin := list_min (flat samples) in
        let smax := list_max (flat samples) in
        In smin (flat samples) /\
        In smax (flat samples) /\
        (forall v, In v (flat samples) -> (smin <= v <= smax)%Z) /\
        ((exists x y, In x (flat samples) /\ In y (flat samples) /\ x <> y) ->
         (smin < smax)%Z /\
         (forall i,
             nth_error (flat samples) i = Some smin ->
             nth_error (flat normalized) i = Some 0%Z) /\
         (forall i,
             nth_error (flat samples) i = Some smax ->
             nth_error (flat normalized) i = Some 255%Z) /\
         (forall r c,
             at2 samples r c = Some smin -> at2 normalized r c = Some 0%Z) /\
         (forall r c,
             at2 samples r c = Some smax -> at2 normalized r c = Some 255%Z) /\
         In 0%Z (flat normalized) /\
         In 255%Z (flat normalized)).
Proof.
  intros msgs Hvalid.
  assert (Hconv : Forall (fun cm => exists f, depth_frame_of fma turbo (snd cm) = ok f)
                    msgs).
  { eapply Forall_impl; [| exact Hvalid]. intros [conn m] Hm. cbn [snd] in *.
    destruct (valid_depth_image fma turbo m Hm) as (h & w & l & _ & _ & _ & _ & _ & _ & Hf).
    eexists. exact Hf. }
  apply Forall_exists_Forall2 in Hconv. destruct Hconv as [frames Hall].
  exists frames. split; [apply extract_depth_frames_iff; exact Hall |].
  split; [symmetry; exact (Forall2_length Hall) |].
  intros k conn msg Hk.
  destruct (Forall2_at _ _ _ Hall k _ Hk) as (colored & Hcolored & Hf). cbn [snd] in Hf.
  pose proof (proj1 (Forall_forall _ _) Hvalid _ (nth_error_In _ _ Hk)) as Hm.
  cbn [snd] in Hm.
  destruct (valid_depth_image fma turbo msg Hm)
    as (h & w & l & _ & Hlen & Hpix & Hrange & Hs & Hn & Hf').
  rewrite Hf in Hf'. injection Hf' as ->.
  set (f := fun i v => normalize_value (fma [h; w] i) (list_min l) (list_max l) v).
  fold f in Hn, Hf.
  exists (mkArray [h; w] l), (mkArray [h; w] (mapi f l)),
    (mkArray [h; w; 3] (flat_map (fun v => bgr_bytes (turbo v)) (mapi f l))).
  split; [exact Hs |]. split; [exact Hn |]. split; [reflexivity |].
  split; [exact Hf |]. split; [exact Hcolored |]. split; [reflexivity |].
  cbn [flat]. split; [apply mapi_length |].
  split.
  { apply Forall_forall. intros v Hv. apply mapi_In in Hv.
    destruct Hv as (i & x & _ & ->). apply normalize_value_range. }
  assert (Hne : l <> []).
  { intros ->. cbn in Hlen. lia. }
  destruct (list_min_spec l Hne) as [Hmin_in Hmin_le].
  destruct (list_max_spec l Hne) as [Hmax_in Hmax_ge].
  cbv zeta. split; [exact Hmin_in |]. split; [exact Hmax_in |].
  split; [intros v Hv; split; [apply Hmin_le | apply Hmax_ge]; exact Hv |].
  intros (x & y & Hx & Hy & Hxy).
  assert (Hlt : (list_min l < list_max l)%Z).
  { pose proof (Hmin_le x Hx). pose proof (Hmax_ge x Hx).
    pose proof (Hmin_le y Hy). pose proof (Hmax_ge y Hy). lia. }
  assert (H0 : (0 <= list_min l)%Z).
  { exact (proj1 (proj1 (Forall_forall _ _) Hrange _ Hmin_in)). }
  assert (H1 : (list_max l <= 65535)%Z).
  { exact (proj2 (proj1 (Forall_forall _ _) Hrange _ Hmax_in)). }
  assert (Hlow : forall i, nth_error l i = Some (list_min l) ->
                           nth_error (mapi f l) i = Some 0%Z).
  { intros i Hi. rewrite mapi_nth_error, Hi. cbn [option_map]. unfold f.
    rewrite (proj1 (normalize_endpoints _ _ _ H0 Hlt H1)). reflexivity. }
  assert (Hhigh : forall i, nth_error l i = Some (list_max l) ->
                            nth_error (mapi f l) i = Some 255%Z).
  { intros i Hi. rewrite mapi_nth_error, Hi. cbn [option_map]. unfold f.
    rewrite (proj2 (normalize_endpoints _ _ _ H0 Hlt H1)). reflexivity. }
  split; [exact Hlt |]. split; [exact Hlow |]. split; [exact Hhigh |].
  split; [| split; [| split]].
  - intros r c. unfold at2. cbn [shape flat].
    destruct ((r <? h) && (c <? w)); [apply Hlow | discriminate].
  - intros r c. unfold at2. cbn [shape flat].
    destruct ((r <? h) && (c <? w)); [apply Hhigh | discriminate].
  - apply In_nth_error in Hmin_in. destruct Hmin_in as [i Hi].
    exact (nth_error_In _ _ (Hlow i Hi)).
  - apply In_nth_error in Hmax_in. destruct Hmax_in as [i Hi].
    exact (nth_error_In _ _ (Hhigh i Hi)).
Qed.

Lemma depth_normalization_per_frame_witness :
  Forall (fun cm => valid_depth (snd cm))
    (reader_messages rec_depth_ranges (connections_on DEPTH_TOPIC rec_depth_ranges)) /\
  extract_depth_frames sample_fma sample_colormap rec_depth_ranges =
    ok [depth_colored_1x2; depth_colored_1x3] /\
  depth_normalized_of sample_fma depth_1x2 = ok (mkArray [1; 2] [0%Z; 255%Z]) /\
  depth_normalized_of sample_fma depth_1x3 = ok (mkArray [1; 3] [0%Z; 218%Z; 255%Z]) /\
  exists samples normalized,
    depth_samples_of depth_1x3 = ok samples /\
    depth_normalized_of sample_fma depth_1x3 = ok normalized /\
    at2 samples 0 0 = Some (list_min (flat samples)) /\
    at2 normalized 0 0 = Some 0%Z /\
    at2 samples 0 2 = Some (list_max (flat samples)) /\
    at2 normalized 0 2 = Some 255%Z.
Proof.
  assert (Hvalid : Forall (fun cm => valid_depth (snd cm))
                     (reader_messages rec_depth_ranges
                        (connections_on DEPTH_TOPIC rec_depth_ranges))).
  { repeat constructor. }
  split; [exact Hvalid |].
  split; [reflexivity |]. split; [reflexivity |]. split; [reflexivity |].
  destruct (depth_normalization_per_frame sample_fma sample_colormap rec_depth_ranges
              Hvalid) as (frames & _ & _ & Hat).
  destruct (Hat 1%nat depth_conn depth_1x3 eq_refl)
    as (samples & normalized & colored & Hs & Hn & _ & _ & _ & _ & _ & _ & Hends).
  cbv zeta in Hends. destruct Hends as (_ & _ & _ & Hends).
  assert (E : depth_samples_of depth_1x3 = ok (mkArray [1; 3] [50000; 50006; 50007]%Z))
    by reflexivity.
  rewrite E in Hs. injection Hs as <-.
  destruct Hends as (_ & _ & _ & Hlow & Hhigh & _).
  { exists 50000%Z, 50006%Z. cbn [flat].
    split; [left; reflexivity |]. split; [right; left; reflexivity | discriminate]. }
  exists (mkArray [1; 3] [50000; 50006; 50007]%Z), normalized.
  split; [exact E |]. split; [exact Hn |].
  split; [reflexivity |]. split; [apply Hlow; reflexivity |].
  split; [reflexivity |]. apply Hhigh. reflexivity.
Defined.
